(** * Seismic risk monitor: the geometric core of [seismic_risk_monitor.py]

    The development embeds the two functions that make up the analysis,
    [handle_antimeridian_buffers] and [perform_risk_analysis], and around
    them [fetch_live_data], [create_dashboard] and the run of [main] from
    the downloads to the dashboard, and states their properties.  The
    projection, which the script leaves to [to_crs], is taken from the
    specification ([CoordinateProjector]).

    Conventions of the embedding.
    - Coordinates, magnitudes and radii are rationals ([Q]); Python's
      comparisons [>], [<], [>=] become the boolean tests [Qgtb], [Qltb],
      [Qgeb].
    - The geometry library the script calls (Shapely through GeoPandas) is an
      interface, the class [Shapely]: every theorem of the general part holds
      for any implementation of it.  [BoxGeometry] is one executable
      implementation, used to run the functions on concrete inputs.
    - A [GeoDataFrame] is its coordinate reference system and its rows in
      order, each row with its index label; a filtered frame keeps the
      labels of the rows it keeps.
    - The order of the rows of a spatial join is left to the library, the
      class [JoinOrder]: the theorems speak of the rows up to their order.
    - A Python exception is [None]; a normal return is [Some]. *)

From Stdlib Require Import QArith Qminmax Qround List Bool Arith Lia Ascii String.
From Stdlib Require Import Permutation Sorted.
From Stdlib Require Import Reals Lra.
Import ListNotations.

Local Open Scope Q_scope.

(** ** Numbers *)

Definition Qgeb (a b : Q) : bool := Qle_bool b a.
Definition Qgtb (a b : Q) : bool := negb (Qle_bool a b).
Definition Qltb (a b : Q) : bool := negb (Qle_bool b a).

(** ** Configuration (lines 42-48 of the script) *)

Definition MIN_MAGNITUDE : Q := 4.
Definition RISK_RADIUS_KM : Q := 50.

Definition MERCATOR_WORLD_MAX_X : Q := 20037508.34.
Definition MERCATOR_WORLD_MIN_X : Q := - 20037508.34.
Definition MERCATOR_WIDTH : Q := MERCATOR_WORLD_MAX_X - MERCATOR_WORLD_MIN_X.

(** ** The geometry library *)

(** The two reference systems the script names: WGS84 degrees and Web
    Mercator metres. *)
Inductive epsg : Type := EPSG4326 | EPSG3857.

(** What the script uses of Shapely, GeoPandas and pyproj on one geometry.
    [bounds g] is [(minx, miny, maxx, maxy)]; [buffer g d] is
    [g.buffer(d)]; [transform s t g] reprojects [g] from [s] to [t];
    [intersects] is the predicate of the spatial join. *)
Class Shapely (G : Type) : Type := {
  bounds : G -> Q * Q * Q * Q;
  box : Q -> Q -> Q -> Q -> G;
  intersection : G -> G -> G;
  translate : G -> Q -> G;
  unary_union : list G -> G;
  buffer : G -> Q -> G;
  transform : epsg -> epsg -> G -> G;
  intersects : G -> G -> bool
}.

(** ** [handle_antimeridian_buffers] *)

Section Antimeridian.

Context {G : Type} `{Shapely G}.

Definition large_y : Q := 10000000000.

Definition inside_box : G :=
  box MERCATOR_WORLD_MIN_X (- large_y) MERCATOR_WORLD_MAX_X large_y.

(** The value appended in the first branch: the part inside the world,
    united with the part beyond the east edge moved one world width west. *)
Definition east_split (geom : G) (maxx : Q) : G :=
  let part_main := intersection geom inside_box in
  let overflow_box := box MERCATOR_WORLD_MAX_X (- large_y) (maxx + 1) large_y in
  let part_overflow := intersection geom overflow_box in
  let part_shifted := translate part_overflow (- MERCATOR_WIDTH) in
  unary_union [part_main; part_shifted].

(** The value appended in the second branch. *)
Definition west_split (geom : G) (minx : Q) : G :=
  let part_main := intersection geom inside_box in
  let overflow_box := box (minx - 1) (- large_y) MERCATOR_WORLD_MIN_X large_y in
  let part_overflow := intersection geom overflow_box in
  let part_shifted := translate part_overflow MERCATOR_WIDTH in
  unary_union [part_main; part_shifted].

(** One iteration of the loop: the geometry appended for [geom]. *)
Definition corrected_geom (geom : G) : G :=
  let '(minx, miny, maxx, maxy) := bounds geom in
  if Qgtb maxx MERCATOR_WORLD_MAX_X then east_split geom maxx
  else if Qltb minx MERCATOR_WORLD_MIN_X then west_split geom minx
  else geom.

(** The loop itself: [corrected_geoms] starts empty and grows by one
    [append] per geometry. *)
Definition handle_antimeridian_buffers (geoms : list G) : list G :=
  fold_left (fun corrected_geoms geom => corrected_geoms ++ [corrected_geom geom])
            geoms [].

Definition minx_of (geom : G) : Q := let '(minx, _, _, _) := bounds geom in minx.
Definition maxx_of (geom : G) : Q := let '(_, _, maxx, _) := bounds geom in maxx.

End Antimeridian.

(** ** Data frames *)

(** A frame: its reference system ([None] for a frame without one, as
    [gpd.GeoDataFrame()] is) and its rows, each with its index label. *)
Record GeoDataFrame (R : Type) : Type := {
  crs : option epsg;
  rows : list (nat * R)
}.
Arguments crs {R} _.
Arguments rows {R} _.

(** [gpd.GeoDataFrame()] *)
Definition empty_frame {R : Type} : GeoDataFrame R := {| crs := None; rows := [] |}.

(** [gdf.empty] *)
Definition empty {R : Type} (gdf : GeoDataFrame R) : bool :=
  match rows gdf with [] => true | _ :: _ => false end.

(** A row of the earthquake feed. *)
Record Quake (G : Type) : Type := {
  mag : Q;
  place : string;
  title : string;
  geometry : G
}.
Arguments mag {G} _.
Arguments place {G} _.
Arguments title {G} _.
Arguments geometry {G} _.

(** A row of the populated places. *)
Record City (G : Type) : Type := {
  name : string;
  adm0name : string;
  pop_max : Q;
  city_point : G
}.
Arguments name {G} _.
Arguments adm0name {G} _.
Arguments pop_max {G} _.
Arguments city_point {G} _.

(** A row of the inner join: the columns of the city, [index_right] and the
    attribute columns of the zone, [mag] and [place] already renamed. *)
Record ImpactedCity (G : Type) : Type := {
  impacted_city : City G;
  index_right : nat;
  Quake_Magnitude : Q;
  Quake_Location : string;
  quake_title : string
}.
Arguments impacted_city {G} _.
Arguments index_right {G} _.
Arguments Quake_Magnitude {G} _.
Arguments Quake_Location {G} _.
Arguments quake_title {G} _.

(** The order in which a spatial join lists its rows is GeoPandas's own,
    that of its spatial index: [sjoin_order left right l] is the list [l] of
    joined rows of the frames [left] and [right] in that order, whatever it
    is. *)
Class JoinOrder (G : Type) : Type := {
  sjoin_order : list (nat * City G) -> list (nat * Quake G) ->
                list (nat * ImpactedCity G) -> list (nat * ImpactedCity G);
  sjoin_order_permutation :
    forall left right l, Permutation l (sjoin_order left right l)
}.

(** Exceptions: [bind] passes the first failure on. *)
Definition bind {A B : Type} (m : option A) (k : A -> option B) : option B :=
  match m with Some a => k a | None => None end.

Notation "x <- m ;; k" := (bind m (fun x => k))
  (at level 61, m at next level, right associativity).

(** ** [perform_risk_analysis] *)

Section RiskAnalysis.

Context {G : Type} `{Shapely G} `{JoinOrder G}.

Definition set_geometry (q : Quake G) (g : G) : Quake G :=
  {| mag := mag q; place := place q; title := title q; geometry := g |}.

(** [gdf.geometry] as a sequence. *)
Definition geometries (gdf : GeoDataFrame (Quake G)) : list G :=
  map (fun r => geometry (snd r)) (rows gdf).

(** [gdf[gdf['mag'] >= min_mag].copy()]: the rows keep their labels. *)
Definition select_mag (gdf : GeoDataFrame (Quake G)) (min_mag : Q)
  : GeoDataFrame (Quake G) :=
  {| crs := crs gdf;
     rows := filter (fun r => Qgeb (mag (snd r)) min_mag) (rows gdf) |}.

(** [gdf.to_crs(epsg=target)]: a frame without a reference system cannot
    be transformed, which GeoPandas reports by raising. *)
Definition to_crs (gdf : GeoDataFrame (Quake G)) (target : epsg)
  : option (GeoDataFrame (Quake G)) :=
  match crs gdf with
  | None => None
  | Some source =>
      Some {| crs := Some target;
              rows := map (fun r => (fst r, set_geometry (snd r)
                                    (transform source target (geometry (snd r)))))
                          (rows gdf) |}
  end.

(** [gdf['geometry'] = gdf.buffer(d)]: the series is aligned on the index. *)
Definition buffer_column (gdf : GeoDataFrame (Quake G)) (d : Q)
  : GeoDataFrame (Quake G) :=
  {| crs := crs gdf;
     rows := map (fun r => (fst r, set_geometry (snd r) (buffer (geometry (snd r)) d)))
                 (rows gdf) |}.

(** [gdf['geometry'] = values] for a list: assigned by position, and a
    list of another length than the frame raises. *)
Fixpoint assign_rows (rs : list (nat * Quake G)) (values : list G)
  : option (list (nat * Quake G)) :=
  match rs, values with
  | [], [] => Some []
  | r :: rs', v :: values' =>
      rest <- assign_rows rs' values' ;;
      Some ((fst r, set_geometry (snd r) v) :: rest)
  | _, _ => None
  end.

Definition assign_geometry (gdf : GeoDataFrame (Quake G)) (values : list G)
  : option (GeoDataFrame (Quake G)) :=
  rs <- assign_rows (rows gdf) values ;;
  Some {| crs := crs gdf; rows := rs |}.

(** The row the join emits for a city and a zone it meets. *)
Definition joined (c : City G) (j : nat) (z : Quake G) : ImpactedCity G :=
  {| impacted_city := c; index_right := j; Quake_Magnitude := mag z;
     Quake_Location := place z; quake_title := title z |}.

Definition hits (c : City G) (zone : nat * Quake G) : bool :=
  intersects (city_point c) (geometry (snd zone)).

(** [gpd.sjoin(left, right, how="inner", predicate="intersects")] followed
    by the renaming of the columns: one row per pair that intersects,
    labelled with the city's label, the rows in the order of the join. *)
Definition sjoin (left : GeoDataFrame (City G)) (right : GeoDataFrame (Quake G))
  : GeoDataFrame (ImpactedCity G) :=
  {| crs := crs left;
     rows := sjoin_order (rows left) (rows right)
               (flat_map
                  (fun l => map (fun z => (fst l, joined (snd l) (fst z) (snd z)))
                                (filter (hits (snd l)) (rows right)))
                  (rows left)) |}.

Definition perform_risk_analysis
    (quakes_gdf : GeoDataFrame (Quake G)) (cities_gdf : GeoDataFrame (City G))
    (min_mag radius_km : Q)
  : option (GeoDataFrame (ImpactedCity G) * GeoDataFrame (Quake G)) :=
  if empty quakes_gdf || empty cities_gdf then Some (empty_frame, empty_frame)
  else
    let sig_quakes := select_mag quakes_gdf min_mag in
    if empty sig_quakes then Some (empty_frame, empty_frame)
    else
      sig_quakes <- to_crs sig_quakes EPSG3857 ;;
      let sig_quakes := buffer_column sig_quakes (radius_km * 1000) in
      sig_quakes <- assign_geometry sig_quakes
                      (handle_antimeridian_buffers (geometries sig_quakes)) ;;
      risk_zones <- to_crs sig_quakes EPSG4326 ;;
      let risk_zones := buffer_column risk_zones 0 in
      let cities_w_risk := sjoin cities_gdf risk_zones in
      Some (cities_w_risk, risk_zones).

(** The geometry of the zone of an event whose point is [g], in a frame
    whose reference system is [source]. *)
Definition zone_geometry (source : epsg) (radius_km : Q) (g : G) : G :=
  buffer (transform EPSG3857 EPSG4326
            (corrected_geom (buffer (transform source EPSG3857 g) (radius_km * 1000))))
         0.

Definition zone_of (source : epsg) (radius_km : Q) (r : nat * Quake G)
  : nat * Quake G :=
  (fst r, set_geometry (snd r) (zone_geometry source radius_km (geometry (snd r)))).

(** The frame of risk zones of the events of [quakes_gdf] that reach
    [min_mag]: one zone per such event, under the event's label. *)
Definition zones_of (source : epsg) (quakes_gdf : GeoDataFrame (Quake G))
    (min_mag radius_km : Q) : GeoDataFrame (Quake G) :=
  {| crs := Some EPSG4326;
     rows := map (zone_of source radius_km)
                 (rows (select_mag quakes_gdf min_mag)) |}.

End RiskAnalysis.

(** ** An executable geometry: finite unions of closed rectangles

    A geometry is a list of closed axis-parallel rectangles
    [(minx, miny, maxx, maxy)], read as their union; a point is a rectangle
    of no extent.  Intersection, union, translation and the [intersects]
    test are exact on this family.  The disc of [buffer] is replaced by its
    bounding square, which has the x-extent that
    [handle_antimeridian_buffers] reads.  The projection is the
    Web-Mercator one in x, [HALF_WORLD] metres for 180 degrees, and uses the
    same scale in y, which is Mercator's at the equator. *)
Module BoxGeometry.

Definition rect : Type := (Q * Q * Q * Q)%type.
Definition geom : Type := list rect.

Definition point (x y : Q) : geom := [(x, y, x, y)].

Definition hull (a b : rect) : rect :=
  let '(ax0, ay0, ax1, ay1) := a in
  let '(bx0, by0, bx1, by1) := b in
  (Qmin ax0 bx0, Qmin ay0 by0, Qmax ax1 bx1, Qmax ay1 by1).

(** The bounds of the empty geometry are not numbers in Shapely; both
    tests of [corrected_geom] fail on them, as they do on zeros. *)
Definition box_bounds (g : geom) : Q * Q * Q * Q :=
  match g with
  | [] => (0, 0, 0, 0)
  | r :: rs => fold_left hull rs r
  end.

Definition meet (a b : rect) : list rect :=
  let '(ax0, ay0, ax1, ay1) := a in
  let '(bx0, by0, bx1, by1) := b in
  let x0 := Qmax ax0 bx0 in let y0 := Qmax ay0 by0 in
  let x1 := Qmin ax1 bx1 in let y1 := Qmin ay1 by1 in
  if Qle_bool x0 x1 && Qle_bool y0 y1 then [(x0, y0, x1, y1)] else [].

Definition box_intersection (g h : geom) : geom :=
  flat_map (fun a => flat_map (meet a) h) g.

Definition shift (dx : Q) (a : rect) : rect :=
  let '(x0, y0, x1, y1) := a in (Qred (x0 + dx), y0, Qred (x1 + dx), y1).

Definition box_translate (g : geom) (xoff : Q) : geom := map (shift xoff) g.

Definition box_unary_union (gs : list geom) : geom := List.concat gs.

Definition grow (d : Q) (a : rect) : rect :=
  let '(x0, y0, x1, y1) := a in
  (Qred (x0 - d), Qred (y0 - d), Qred (x1 + d), Qred (y1 + d)).

Definition has_area (a : rect) : bool :=
  let '(x0, y0, x1, y1) := a in Qltb x0 x1 && Qltb y0 y1.

(** [buffer] returns a polygon: what has no area is left out, so that a
    point buffered by a distance that is not positive is empty. *)
Definition box_buffer (g : geom) (d : Q) : geom :=
  filter has_area (map (grow d) g).

(** Projected x of longitude 180: the sphere's radius 6378137 times pi, to
    the digits of a double. *)
Definition HALF_WORLD : Q := 20037508.342789244.

Definition scale (k : Q) (a : rect) : rect :=
  let '(x0, y0, x1, y1) := a in
  (Qred (x0 * k), Qred (y0 * k), Qred (x1 * k), Qred (y1 * k)).

Definition box_transform (source target : epsg) (g : geom) : geom :=
  match source, target with
  | EPSG4326, EPSG3857 => map (scale (HALF_WORLD / 180)) g
  | EPSG3857, EPSG4326 => map (scale (180 / HALF_WORLD)) g
  | _, _ => g
  end.

Definition overlap (a b : rect) : bool :=
  match meet a b with [] => false | _ :: _ => true end.

Definition box_intersects (g h : geom) : bool :=
  existsb (fun a => existsb (overlap a) h) g.

#[export] Instance box_shapely : Shapely geom := {|
  bounds := box_bounds;
  box := fun minx miny maxx maxy => [(minx, miny, maxx, maxy)];
  intersection := box_intersection;
  translate := box_translate;
  unary_union := box_unary_union;
  buffer := box_buffer;
  transform := box_transform;
  intersects := box_intersects
|}.

(** The joined rows place by place, and zone by zone for each place. *)
#[export] Instance box_join_order : JoinOrder geom := {|
  sjoin_order := fun _ _ l => l;
  sjoin_order_permutation := fun _ _ l => Permutation_refl l
|}.

(** Rows and frames in WGS84, labelled 0, 1, ... *)
Definition quake (m lon lat : Q) : Quake geom :=
  {| mag := m; place := "offshore"; title := "M - offshore";
     geometry := point lon lat |}.

Definition town (lon lat : Q) : City geom :=
  {| name := "Town"; adm0name := "Country"; pop_max := 1000;
     city_point := point lon lat |}.

Definition frame {R : Type} (l : list R) : GeoDataFrame R :=
  {| crs := Some EPSG4326; rows := combine (seq 0 (List.length l)) l |}.

(** Projected geometries: one inside the world, one over its east edge,
    one over its west edge, one over both. *)
Definition inland : geom := [(-50000, -50000, 50000, 50000)].
Definition over_east : geom := [(20000000, -50000, 20100000, 50000)].
Definition over_west : geom := [(-20100000, -50000, -20000000, 50000)].

(** Frames: an event on the antimeridian and a place at its epicentre;
    three events, two of them strong and close to each other, and two
    places, the first between the two strong events. *)
Definition quakes_dateline : GeoDataFrame (Quake geom) := frame [quake 5 180 0].
Definition towns_dateline : GeoDataFrame (City geom) := frame [town 180 0].

Definition quakes_gulf : GeoDataFrame (Quake geom) :=
  frame [quake 5 0 0; quake 3 1 1; quake 6 0.1 0].
Definition towns_gulf : GeoDataFrame (City geom) :=
  frame [town 0.05 0; town 10 10].

(** What the analysis returned, for a run that raised nothing. *)
Definition returned {A B : Type} (result : option (GeoDataFrame A * GeoDataFrame B))
  : GeoDataFrame A * GeoDataFrame B :=
  match result with
  | Some out => out
  | None => (empty_frame, empty_frame)
  end.

End BoxGeometry.

(** ** [fetch_live_data]

    What the functions print is left out of the embedding throughout. *)

Definition URL_QUAKES : string :=
  "https://earthquake.usgs.gov/earthquakes/feed/v1.0/summary/2.5_week.geojson".
Definition URL_CITIES : string :=
  "https://d2ad6b4ur7yvpq.cloudfront.net/naturalearth-3.3.0/ne_110m_populated_places_simple.geojson".

Section Fetch.

Context {R : Type}.

(** [gpd.read_file]: the frame read from the address, or [None] when the
    call raises. *)
Variable read_file : string -> option (GeoDataFrame R).

Definition fetch_live_data (url name : string) : GeoDataFrame R :=
  match read_file url with
  | Some gdf => gdf
  | None => empty_frame
  end.

End Fetch.

(** ** [create_dashboard] *)

(** A marker of the map: where it is, [[y, x]], its radius, the text of its
    popup. *)
Record CircleMarker : Type := {
  location : Q * Q;
  radius : Q;
  popup : string
}.

(** What is added to the map.  The styling arguments, all constants, are
    left out. *)
Inductive Layer (G : Type) : Type :=
| TileLayer (tiles : string)
| HeatMap (heat_data : list (Q * Q * Q))
| GeoJson (data : GeoDataFrame (Quake G))
| FeatureGroup (group_name : string) (markers : list CircleMarker)
| LayerControl.
Arguments TileLayer {G} _.
Arguments HeatMap {G} _.
Arguments GeoJson {G} _.
Arguments FeatureGroup {G} _ _.
Arguments LayerControl {G}.

(** [folium.Map]: its centre and zoom, and its children in the order in
    which they were added. *)
Record Map (G : Type) : Type := {
  map_location : Q * Q;
  zoom_start : Q;
  children : list (Layer G)
}.
Arguments map_location {G} _.
Arguments zoom_start {G} _.
Arguments children {G} _.

(** [folium.Map(location=..., zoom_start=..., tiles=...)]: the tiles are
    the first child of the new map. *)
Definition new_map {G : Type} (location : Q * Q) (zoom : Q) (tiles : string)
  : Map G :=
  {| map_location := location; zoom_start := zoom;
     children := [TileLayer tiles] |}.

(** [child.add_to(m)] *)
Definition add_to {G : Type} (child : Layer G) (m : Map G) : Map G :=
  {| map_location := map_location m; zoom_start := zoom_start m;
     children := children m ++ [child] |}.

(** The bar chart: a bar per row, its [x] the name and its [y] the
    magnitude. *)
Record Figure : Type := { bars : list (string * Q) }.

(** What [create_dashboard] calls besides the geometry library:
    [centroid]; the coordinates [.x] and [.y] of a point, [None] where the
    access raises, as it does on a point that is empty or missing;
    [math.log]; the text of a popup (formatted from the row);
    [sort_values] on [Quake_Magnitude] with [ascending=False]; and the two
    writes to disk, which hold [true] when the file was written and
    [false] when the call raised. *)
Class Presentation (G : Type) : Type := {
  centroid : G -> G;
  point_x : G -> option Q;
  point_y : G -> option Q;
  log : Q -> Q;
  popup_html : ImpactedCity G -> string;
  sort_values : list (nat * ImpactedCity G) -> list (nat * ImpactedCity G);
  save : string -> Map G -> bool;
  write_image : string -> Figure -> bool
}.

(** [os.path.join] of two components, on a POSIX system. *)
Fixpoint ends_with_slash (s : string) : bool :=
  match s with
  | EmptyString => false
  | String c EmptyString => Ascii.eqb c "/"%char
  | String _ rest => ends_with_slash rest
  end.

Definition path_join (a b : string) : string :=
  match b with
  | String "/"%char _ => b
  | _ =>
      match a with
      | EmptyString => b
      | _ => if ends_with_slash a then append a b
             else append a (append "/" b)
      end
  end.

(** A dictionary with string keys, as the pairs in insertion order. *)
Definition dict : Type := list (string * string).

Fixpoint dict_get (d : dict) (key : string) : option string :=
  match d with
  | [] => None
  | (k, v) :: rest => if String.eqb k key then Some v else dict_get rest key
  end.

Fixpoint dict_set (d : dict) (key value : string) : dict :=
  match d with
  | [] => [(key, value)]
  | (k, v) :: rest =>
      if String.eqb k key then (k, value) :: rest
      else (k, v) :: dict_set rest key value
  end.

(** What [create_dashboard] leaves behind: the dictionary it returns, the
    map it saved and the figure it built, if it built one. *)
Record Dashboard (G : Type) : Type := {
  outputs : dict;
  saved_map : Map G;
  figure : option Figure
}.
Arguments outputs {G} _.
Arguments saved_map {G} _.
Arguments figure {G} _.

Section Dashboard.

Context {G : Type} `{Shapely G} `{JoinOrder G} `{Presentation G}.

(** A comprehension or loop whose body may raise: the results in order,
    or the first failure. *)
Fixpoint for_each {A B : Type} (body : A -> option B) (l : list A)
  : option (list B) :=
  match l with
  | [] => Some []
  | a :: rest =>
      b <- body a ;;
      bs <- for_each body rest ;;
      Some (b :: bs)
  end.

(** [risk_zones.to_crs(epsg=3857).centroid.to_crs(epsg=4326)] zipped with
    the magnitudes: a triple [[y, x, mag]] per zone. *)
Definition heat_data_of (risk_zones : GeoDataFrame (Quake G))
  : option (list (Q * Q * Q)) :=
  projected <- to_crs risk_zones EPSG3857 ;;
  let centroids := map (fun r => transform EPSG3857 EPSG4326
                                   (centroid (geometry (snd r))))
                       (rows projected) in
  for_each (fun pm => y <- point_y (fst pm) ;;
                      x <- point_x (fst pm) ;;
                      Some (y, x, snd pm))
           (combine centroids (map (fun r => mag (snd r)) (rows risk_zones))).

(** The marker of one row of [impact_cities]. *)
Definition marker_of (row : ImpactedCity G) : option CircleMarker :=
  let pop := pop_max (impacted_city row) in
  let radius := if Qgtb pop 0 then log pop else 5 in
  let popup_text := popup_html row in
  y <- point_y (city_point (impacted_city row)) ;;
  x <- point_x (city_point (impacted_city row)) ;;
  Some {| location := (y, x); radius := radius; popup := popup_text |}.

(** The map as it is when it is saved. *)
Definition dashboard_map (impact_cities : GeoDataFrame (ImpactedCity G))
    (risk_zones : GeoDataFrame (Quake G)) : option (Map G) :=
  let m := new_map (20, 140) 3 "CartoDB dark_matter" in
  m <- (if negb (empty risk_zones)
        then heat_data <- heat_data_of risk_zones ;;
             Some (add_to (HeatMap heat_data) m)
        else Some m) ;;
  let m := if negb (empty risk_zones) then add_to (GeoJson risk_zones) m else m in
  m <- (if negb (empty impact_cities)
        then markers <- for_each (fun r => marker_of (snd r)) (rows impact_cities) ;;
             Some (add_to (FeatureGroup "Impacted Cities" markers) m)
        else Some m) ;;
  Some (add_to LayerControl m).

(** Rows in the order of [ascending=False]: no row before one of greater
    magnitude. *)
Definition descending (a b : nat * ImpactedCity G) : Prop :=
  Quake_Magnitude (snd b) <= Quake_Magnitude (snd a).

(** [sort_values('Quake_Magnitude', ascending=False).head(10)] *)
Definition top_cities (impact_cities : GeoDataFrame (ImpactedCity G))
  : list (nat * ImpactedCity G) :=
  firstn 10 (sort_values (rows impact_cities)).

Definition bar_chart (rows_shown : list (nat * ImpactedCity G)) : Figure :=
  {| bars := map (fun r => (name (impacted_city (snd r)), Quake_Magnitude (snd r)))
                 rows_shown |}.

Definition create_dashboard (impact_cities : GeoDataFrame (ImpactedCity G))
    (risk_zones : GeoDataFrame (Quake G)) (out_dir : string)
  : option (Dashboard G) :=
  let outputs : dict := [] in
  m <- dashboard_map impact_cities risk_zones ;;
  let map_path := path_join out_dir "seismic_risk_map.html" in
  if save map_path m then
    let outputs := dict_set outputs "map_path" map_path in
    let outputs := dict_set outputs "map_filename" "seismic_risk_map.html" in
    if negb (empty impact_cities) then
      let fig := bar_chart (top_cities impact_cities) in
      let chart_png := path_join out_dir "risk_chart.png" in
      let outputs := if write_image chart_png fig
                     then dict_set outputs "chart_png" chart_png
                     else outputs in
      Some {| outputs := outputs; saved_map := m; figure := Some fig |}
    else Some {| outputs := outputs; saved_map := m; figure := None |}
  else None.

(** ** [main], from the two downloads to the dashboard *)

Variable read_quakes : string -> option (GeoDataFrame (Quake G)).
Variable read_cities : string -> option (GeoDataFrame (City G)).


End Dashboard.

(** ** An executable presentation, on the rectangles of [BoxGeometry]

    The centroid is the mean of the centres of the rectangles weighted by
    their areas (the plain mean when no rectangle has an area); the
    coordinates of a point are those of its first corner, and an empty
    geometry has none; the logarithm is the binary logarithm of the integer
    part; sorting is by insertion; both writes to disk succeed. *)
Module BoxPresentation.

Import BoxGeometry.

Definition area (a : rect) : Q :=
  let '(x0, y0, x1, y1) := a in (x1 - x0) * (y1 - y0).

Definition centre (a : rect) : Q * Q :=
  let '(x0, y0, x1, y1) := a in ((x0 + x1) / 2, (y0 + y1) / 2).

Definition Qsum (l : list Q) : Q := fold_right Qplus 0 l.

Definition box_centroid (g : geom) : geom :=
  match g with
  | [] => []
  | _ :: _ =>
      let weights := if Qgtb (Qsum (map area g)) 0 then map area g
                     else map (fun _ => 1) g in
      let total := Qsum weights in
      let x := Qsum (map (fun aw => fst (centre (fst aw)) * snd aw) (combine g weights)) in
      let y := Qsum (map (fun aw => snd (centre (fst aw)) * snd aw) (combine g weights)) in
      point (Qred (x / total)) (Qred (y / total))
  end.

Definition box_point_x (g : geom) : option Q :=
  match g with
  | (x0, _, _, _) :: _ => Some x0
  | [] => None
  end.

Definition box_point_y (g : geom) : option Q :=
  match g with
  | (_, y0, _, _) :: _ => Some y0
  | [] => None
  end.

Definition box_log (p : Q) : Q := inject_Z (Z.log2 (Qfloor p)).

Fixpoint insert_by_magnitude (r : nat * ImpactedCity geom)
    (l : list (nat * ImpactedCity geom)) : list (nat * ImpactedCity geom) :=
  match l with
  | [] => [r]
  | h :: t =>
      if Qgeb (Quake_Magnitude (snd r)) (Quake_Magnitude (snd h)) then r :: l
      else h :: insert_by_magnitude r t
  end.

Definition box_sort_values (l : list (nat * ImpactedCity geom))
  : list (nat * ImpactedCity geom) :=
  fold_right insert_by_magnitude [] l.

#[export] Instance box_presentation : Presentation geom := {|
  centroid := box_centroid;
  point_x := box_point_x;
  point_y := box_point_y;
  log := box_log;
  popup_html := fun row => name (impacted_city row);
  sort_values := box_sort_values;
  save := fun _ _ => true;
  write_image := fun _ _ => true
|}.

(** A disk on which nothing can be written. *)
Definition read_only_disk : Presentation geom := {|
  centroid := box_centroid;
  point_x := box_point_x;
  point_y := box_point_y;
  log := box_log;
  popup_html := fun row => name (impacted_city row);
  sort_values := box_sort_values;
  save := fun _ _ => false;
  write_image := fun _ _ => false
|}.

(** Downloads: one that succeeds for both feeds, one that fails. *)
Definition read_gulf_quakes (url : string) : option (GeoDataFrame (Quake geom)) :=
  Some quakes_gulf.
Definition read_gulf_towns (url : string) : option (GeoDataFrame (City geom)) :=
  Some towns_gulf.
Definition offline {R : Type} (url : string) : option (GeoDataFrame R) := None.

(** Twelve places around one event, and a second event near some of
    them. *)
Definition towns_ring : GeoDataFrame (City geom) :=
  frame (map (fun k => town (inject_Z (Z.of_nat k) / 100) 0) (seq 0 12)).
Definition quakes_ring : GeoDataFrame (Quake geom) :=
  frame [quake 5 0 0; quake 6.5 (-0.4) 0].

(** What [create_dashboard] left behind, for a run that raised nothing. *)
Definition left_behind (result : option (Dashboard geom)) : Dashboard geom :=
  match result with
  | Some d => d
  | None => {| outputs := [];
               saved_map := {| map_location := (0, 0); zoom_start := 0;
                               children := [] |};
               figure := None |}
  end.

(** The analysis of [quakes_ring] against [towns_ring], and the two halves
    of [towns_gulf]. *)
Definition analysis_ring
  : GeoDataFrame (ImpactedCity geom) * GeoDataFrame (Quake geom) :=
  returned (perform_risk_analysis quakes_ring towns_ring 4 50).
Definition towns_gulf_west : GeoDataFrame (City geom) :=
  {| crs := Some EPSG4326; rows := [(0%nat, town 0.05 0)] |}.
Definition towns_gulf_east : GeoDataFrame (City geom) :=
  {| crs := Some EPSG4326; rows := [(1%nat, town 10 10)] |}.

(** The analysis of [quakes_gulf] with radius 0: its zones have empty
    geometries. *)
Definition analysis_flat
  : GeoDataFrame (ImpactedCity geom) * GeoDataFrame (Quake geom) :=
  returned (perform_risk_analysis quakes_gulf towns_gulf 4 0).

(** A frame of zones that has lost its reference system. *)
Definition naive_zones : GeoDataFrame (Quake geom) :=
  {| crs := None; rows := [(0%nat, quake 5 0 0)] |}.

End BoxPresentation.

(** ** The projection

    The script does not project by itself: it calls [to_crs], kept above as
    [transform].  The two directions below are those of the specification,
    over the real numbers. *)
Module CoordinateProjector.

Local Open Scope R_scope.

(** Modelled from the spec: the radius of the sphere, R = 6378137 m, of the
    projection that [to_crs] computes outside the script. *)
Definition EARTH_RADIUS : R := 6378137.

(** Modelled from the spec: the latitude at which the input is clamped
    before projection, 85.0511 degrees. *)
Definition MAX_LATITUDE : R := 85.0511.

(** Modelled from the spec: the angles of the specification are in
    degrees, those of its formulas in radians. *)
Definition radians (degrees : R) : R := degrees * PI / 180.
Definition degrees (radians : R) : R := radians * 180 / PI.

(** Modelled from the spec: the clamp of the latitude to
    [-85.0511, 85.0511] that precedes the projection. *)
Definition clamp_latitude (lat : R) : R :=
  Rmax (- MAX_LATITUDE) (Rmin MAX_LATITUDE lat).

(** Modelled from the spec: [toProjected], the spherical Web-Mercator
    transform x = R lon_rad, y = R ln (tan (pi/4 + lat_rad/2)) of the
    clamped latitude, which the script leaves to [to_crs(epsg=3857)]. *)
Definition toProjected (lon lat : R) : R * R :=
  let lon_rad := radians lon in
  let lat_rad := radians (clamp_latitude lat) in
  (EARTH_RADIUS * lon_rad, EARTH_RADIUS * ln (tan (PI / 4 + lat_rad / 2))).

(** Modelled from the spec: [toGeographic], the analytic inverse of
    [toProjected], which the script leaves to [to_crs(epsg=4326)]. *)
Definition toGeographic (x y : R) : R * R :=
  (degrees (x / EARTH_RADIUS),
   degrees (2 * atan (exp (y / EARTH_RADIUS)) - PI / 2)).

End CoordinateProjector.

(** * Properties *)

(** ** Comparisons *)

Lemma Qgeb_true (a b : Q) : Qgeb a b = true <-> b <= a.
Proof. unfold Qgeb. apply Qle_bool_iff. Qed.

Lemma Qgtb_true (a b : Q) : Qgtb a b = true <-> b < a.
Proof.
  unfold Qgtb. rewrite negb_true_iff. split; intro H.
  - apply Qnot_le_lt. intro L. apply Qle_bool_iff in L. congruence.
  - destruct (Qle_bool a b) eqn:E; [| reflexivity].
    apply Qle_bool_iff in E. exfalso. exact (Qlt_not_le _ _ H E).
Qed.

Lemma Qgtb_false (a b : Q) : Qgtb a b = false <-> a <= b.
Proof.
  unfold Qgtb. rewrite negb_false_iff. apply Qle_bool_iff.
Qed.

Lemma Qltb_true (a b : Q) : Qltb a b = true <-> a < b.
Proof. exact (Qgtb_true b a). Qed.

Lemma Qltb_false (a b : Q) : Qltb a b = false <-> b <= a.
Proof. exact (Qgtb_false b a). Qed.

Lemma MERCATOR_WORLD_MIN_X_opp : MERCATOR_WORLD_MIN_X = - MERCATOR_WORLD_MAX_X.
Proof. reflexivity. Qed.

(** ** The antimeridian correction *)

Section AntimeridianFacts.

Context {G : Type} `{Shapely G}.

Lemma append_loop (f : G -> G) (geoms acc : list G) :
  fold_left (fun corrected_geoms geom => corrected_geoms ++ [f geom]) geoms acc
  = acc ++ map f geoms.
Proof.
  revert acc. induction geoms as [| g geoms IH]; intro acc; simpl.
  - now rewrite app_nil_r.
  - rewrite IH, <- app_assoc. reflexivity.
Qed.

Lemma handle_antimeridian_buffers_map (geoms : list G) :
  handle_antimeridian_buffers geoms = map corrected_geom geoms.
Proof. unfold handle_antimeridian_buffers. now rewrite append_loop. Qed.

Lemma handle_antimeridian_buffers_nth (geoms : list G) (i : nat) (geom : G) :
  nth_error geoms i = Some geom ->
  nth_error (handle_antimeridian_buffers geoms) i = Some (corrected_geom geom).
Proof.
  intro E. rewrite handle_antimeridian_buffers_map.
  now apply map_nth_error.
Qed.

Lemma corrected_geom_east (geom : G) :
  MERCATOR_WORLD_MAX_X < maxx_of geom ->
  corrected_geom geom = east_split geom (maxx_of geom).
Proof.
  unfold corrected_geom, maxx_of.
  destruct (bounds geom) as [[[minx miny] maxx] maxy]. intro L.
  apply Qgtb_true in L. now rewrite L.
Qed.

Lemma corrected_geom_west (geom : G) :
  maxx_of geom <= MERCATOR_WORLD_MAX_X ->
  minx_of geom < MERCATOR_WORLD_MIN_X ->
  corrected_geom geom = west_split geom (minx_of geom).
Proof.
  unfold corrected_geom, maxx_of, minx_of.
  destruct (bounds geom) as [[[minx miny] maxx] maxy]. intros L1 L2.
  apply Qgtb_false in L1. apply Qltb_true in L2. now rewrite L1, L2.
Qed.

Lemma corrected_geom_inside (geom : G) :
  MERCATOR_WORLD_MIN_X <= minx_of geom ->
  maxx_of geom <= MERCATOR_WORLD_MAX_X ->
  corrected_geom geom = geom.
Proof.
  unfold corrected_geom, maxx_of, minx_of.
  destruct (bounds geom) as [[[minx miny] maxx] maxy]. intros L1 L2.
  apply Qltb_false in L1. apply Qgtb_false in L2. now rewrite L1, L2.
Qed.

(** C1. A geometry over the east edge only becomes the union of its part
    within [[-MAX_X, MAX_X]] and of its part in the strip from [MAX_X] to
    [maxx + 1] moved west by the world width; the strip's edge [MAX_X]
    lands on [-MAX_X].  A geometry over the west edge only is treated
    the same way with the strip from [minx - 1] to [-MAX_X], moved east. *)
Theorem one_sided_overflow_split (geoms : list G) (i : nat) (geom : G) :
  nth_error geoms i = Some geom ->
  (MERCATOR_WORLD_MAX_X < maxx_of geom ->
   - MERCATOR_WORLD_MAX_X <= minx_of geom ->
   nth_error (handle_antimeridian_buffers geoms) i =
     Some (unary_union
             [intersection geom
                (box (- MERCATOR_WORLD_MAX_X) (- large_y) MERCATOR_WORLD_MAX_X large_y);
              translate
                (intersection geom
                   (box MERCATOR_WORLD_MAX_X (- large_y) (maxx_of geom + 1) large_y))
                (- MERCATOR_WIDTH)])
   /\ MERCATOR_WORLD_MAX_X + - MERCATOR_WIDTH == - MERCATOR_WORLD_MAX_X)
  /\
  (minx_of geom < - MERCATOR_WORLD_MAX_X ->
   maxx_of geom <= MERCATOR_WORLD_MAX_X ->
   nth_error (handle_antimeridian_buffers geoms) i =
     Some (unary_union
             [intersection geom
                (box (- MERCATOR_WORLD_MAX_X) (- large_y) MERCATOR_WORLD_MAX_X large_y);
              translate
                (intersection geom
                   (box (minx_of geom - 1) (- large_y) (- MERCATOR_WORLD_MAX_X) large_y))
                MERCATOR_WIDTH])
   /\ - MERCATOR_WORLD_MAX_X + MERCATOR_WIDTH == MERCATOR_WORLD_MAX_X).
Proof.
  intro E. split.
  - intros Hmax _. split; [| reflexivity].
    rewrite (handle_antimeridian_buffers_nth _ _ _ E).
    now rewrite corrected_geom_east.
  - intros Hmin Hmax. split; [| reflexivity].
    rewrite (handle_antimeridian_buffers_nth _ _ _ E).
    now rewrite corrected_geom_west.
Qed.


(** C6. A geometry whose bounds stay within [[-MAX_X, MAX_X]] is returned
    as it is, so with its bounds; a list of such geometries comes back
    unchanged. *)
Theorem inside_world_identity (geoms : list G) :
  (forall i geom,
      nth_error geoms i = Some geom ->
      - MERCATOR_WORLD_MAX_X <= minx_of geom ->
      maxx_of geom <= MERCATOR_WORLD_MAX_X ->
      nth_error (handle_antimeridian_buffers geoms) i = Some geom
      /\ option_map bounds (nth_error (handle_antimeridian_buffers geoms) i)
         = Some (bounds geom))
  /\
  (Forall (fun geom => - MERCATOR_WORLD_MAX_X <= minx_of geom
                       /\ maxx_of geom <= MERCATOR_WORLD_MAX_X) geoms ->
   handle_antimeridian_buffers geoms = geoms).
Proof.
  split.
  - intros i geom E Hmin Hmax.
    rewrite (handle_antimeridian_buffers_nth _ _ _ E).
    rewrite corrected_geom_inside by assumption. auto.
  - intro F. rewrite handle_antimeridian_buffers_map.
    induction F as [| geom geoms [Hmin Hmax] F IH]; simpl; [reflexivity |].
    rewrite corrected_geom_inside by assumption. now rewrite IH.
Qed.

(** C10. The correction returns one geometry per input geometry, in the
    order of the inputs: the output at a position is the corrected input
    at that position, and nothing else. *)
Theorem one_output_per_input (geoms : list G) :
  List.length (handle_antimeridian_buffers geoms) = List.length geoms
  /\ forall i,
      nth_error (handle_antimeridian_buffers geoms) i
      = option_map corrected_geom (nth_error geoms i).
Proof.
  rewrite handle_antimeridian_buffers_map. split.
  - apply length_map.
  - intro i. apply nth_error_map.
Qed.

End AntimeridianFacts.

(** ** The analysis *)

Section AnalysisFacts.

Context {G : Type} `{Shapely G} `{JoinOrder G}.

Lemma assign_rows_map (f : G -> G) (rs : list (nat * Quake G)) :
  assign_rows rs (map f (map (fun r => geometry (snd r)) rs))
  = Some (map (fun r => (fst r, set_geometry (snd r) (f (geometry (snd r))))) rs).
Proof.
  induction rs as [| r rs IH]; simpl; [reflexivity |].
  now rewrite IH.
Qed.

Lemma empty_true {R : Type} (gdf : GeoDataFrame R) :
  empty gdf = true <-> rows gdf = [].
Proof.
  unfold empty. destruct (rows gdf); split; intro E; congruence.
Qed.

Lemma empty_false {R : Type} (gdf : GeoDataFrame R) :
  empty gdf = false <-> rows gdf <> [].
Proof.
  unfold empty. destruct (rows gdf); split; intro E; congruence.
Qed.

(** The early returns. *)
Lemma perform_risk_analysis_no_data quakes_gdf cities_gdf min_mag radius_km :
  rows quakes_gdf = [] \/ rows cities_gdf = [] ->
  perform_risk_analysis quakes_gdf cities_gdf min_mag radius_km
  = Some (empty_frame, empty_frame).
Proof.
  intro E. unfold perform_risk_analysis.
  replace (empty quakes_gdf || empty cities_gdf) with true; [reflexivity |].
  symmetry. apply orb_true_iff.
  destruct E as [E | E]; [left | right]; now apply empty_true.
Qed.

Lemma perform_risk_analysis_no_quake quakes_gdf cities_gdf min_mag radius_km :
  rows (select_mag quakes_gdf min_mag) = [] ->
  perform_risk_analysis quakes_gdf cities_gdf min_mag radius_km
  = Some (empty_frame, empty_frame).
Proof.
  intro E. unfold perform_risk_analysis.
  destruct (empty quakes_gdf || empty cities_gdf); [reflexivity |].
  apply empty_true in E. now rewrite E.
Qed.

(** The run past the early returns fails exactly when the events have no
    reference system. *)
Lemma perform_risk_analysis_naive quakes_gdf cities_gdf min_mag radius_km :
  crs quakes_gdf = None ->
  rows cities_gdf <> [] ->
  rows (select_mag quakes_gdf min_mag) <> [] ->
  perform_risk_analysis quakes_gdf cities_gdf min_mag radius_km = None.
Proof.
  intros C Ec Es. unfold perform_risk_analysis.
  assert (Eq : rows quakes_gdf <> []).
  { intro E. apply Es. simpl. now rewrite E. }
  apply empty_false in Eq, Ec, Es. rewrite Eq, Ec, Es. simpl.
  unfold to_crs. simpl. now rewrite C.
Qed.

(** The run past the early returns, for events with a reference system. *)
Lemma perform_risk_analysis_zones source quakes_gdf cities_gdf min_mag radius_km :
  crs quakes_gdf = Some source ->
  rows cities_gdf <> [] ->
  rows (select_mag quakes_gdf min_mag) <> [] ->
  perform_risk_analysis quakes_gdf cities_gdf min_mag radius_km
  = Some (sjoin cities_gdf (zones_of source quakes_gdf min_mag radius_km),
          zones_of source quakes_gdf min_mag radius_km).
Proof.
  intros C Ec Es. unfold perform_risk_analysis.
  assert (Eq : rows quakes_gdf <> []).
  { intro E. apply Es. simpl. now rewrite E. }
  apply empty_false in Eq, Ec, Es. rewrite Eq, Ec, Es. simpl.
  unfold to_crs at 1. simpl. rewrite C. simpl.
  unfold assign_geometry, geometries.
  rewrite handle_antimeridian_buffers_map, assign_rows_map. simpl.
  unfold to_crs. simpl.
  match goal with
  | |- Some (sjoin _ ?zones, _) = _ =>
      assert (Z : zones = zones_of source quakes_gdf min_mag radius_km)
  end.
  { unfold buffer_column, zones_of. simpl. f_equal.
    rewrite !map_map. apply map_ext. intros [j q]. reflexivity. }
  now rewrite Z.
Qed.

Lemma perform_risk_analysis_cases quakes_gdf cities_gdf min_mag radius_km :
  perform_risk_analysis quakes_gdf cities_gdf min_mag radius_km
  = Some (empty_frame, empty_frame)
  \/ perform_risk_analysis quakes_gdf cities_gdf min_mag radius_km = None
  \/ exists source,
       crs quakes_gdf = Some source
       /\ rows cities_gdf <> []
       /\ perform_risk_analysis quakes_gdf cities_gdf min_mag radius_km
          = Some (sjoin cities_gdf (zones_of source quakes_gdf min_mag radius_km),
                  zones_of source quakes_gdf min_mag radius_km).
Proof.
  destruct (rows cities_gdf) as [| c cs] eqn:Ec.
  { left. apply perform_risk_analysis_no_data. now right. }
  destruct (rows (select_mag quakes_gdf min_mag)) as [| q qs] eqn:Es.
  { left. now apply perform_risk_analysis_no_quake. }
  right. destruct (crs quakes_gdf) as [source |] eqn:C.
  - right. exists source. split; [reflexivity |]. split; [congruence |].
    apply perform_risk_analysis_zones; congruence.
  - left. apply perform_risk_analysis_naive; congruence.
Qed.

(** Which rows a frame of zones has. *)
Lemma zones_of_rows source quakes_gdf min_mag radius_km (j : nat) (z : Quake G) :
  In (j, z) (rows (zones_of source quakes_gdf min_mag radius_km)) <->
  exists q, In (j, q) (rows quakes_gdf)
            /\ min_mag <= mag q
            /\ z = set_geometry q (zone_geometry source radius_km (geometry q)).
Proof.
  unfold zones_of, select_mag. simpl. rewrite in_map_iff. split.
  - intros [[j' q] [E I]]. apply filter_In in I. destruct I as [I M].
    unfold zone_of in E. simpl in *. inversion E; subst.
    exists q. split; [assumption |]. split; [| reflexivity].
    now apply Qgeb_true.
  - intros [q [I [M E]]]. exists (j, q). split.
    + unfold zone_of. simpl. now rewrite E.
    + apply filter_In. split; [assumption |]. simpl. now apply Qgeb_true.
Qed.

(** Which rows the join has: the pairs that intersect, and no other. *)
Lemma sjoin_rows left right (i : nat) (r : ImpactedCity G) :
  In (i, r) (rows (sjoin left right)) <->
  exists c j z, In (i, c) (rows left) /\ In (j, z) (rows right)
                /\ intersects (city_point c) (geometry z) = true
                /\ r = joined c j z.
Proof.
  unfold sjoin. cbn [rows].
  assert (P : forall l, In (i, r) (sjoin_order (rows left) (rows right) l)
                        <-> In (i, r) l).
  { intro l. split; apply Permutation_in;
      [apply Permutation_sym |]; apply sjoin_order_permutation. }
  rewrite P, in_flat_map. split.
  - intros [[i' c] [Il Ir]]. simpl in Ir. apply in_map_iff in Ir.
    destruct Ir as [[j z] [E Iz]]. apply filter_In in Iz.
    destruct Iz as [Iz Hz]. simpl in E. inversion E; subst.
    exists c, j, z. auto.
  - intros [c [j [z [Il [Ir [Hz E]]]]]]. exists (i, c). split; [assumption |].
    simpl. apply in_map_iff. exists (j, z). split.
    + simpl. now rewrite E.
    + apply filter_In. auto.
Qed.

Lemma sjoin_no_zone left right :
  rows right = [] -> rows (sjoin left right) = [].
Proof.
  intro E. unfold sjoin. cbn [rows]. rewrite E. simpl.
  replace (flat_map (fun _ : nat * City G => @nil (nat * ImpactedCity G))
             (rows left)) with (@nil (nat * ImpactedCity G)).
  - apply Permutation_nil. apply sjoin_order_permutation.
  - induction (rows left) as [| l ls IH]; simpl; auto.
Qed.

Lemma filter_label_same {A B : Type} (f : A -> B) (i : nat) (zs : list A) :
  filter (fun row : nat * B => Nat.eqb (fst row) i) (map (fun z => (i, f z)) zs)
  = map (fun z => (i, f z)) zs.
Proof.
  induction zs as [| z zs IH]; simpl; [reflexivity |].
  rewrite Nat.eqb_refl. now rewrite IH.
Qed.

Lemma filter_label_other {A B : Type} (f : A -> B) (i k : nat) (zs : list A) :
  k <> i ->
  filter (fun row : nat * B => Nat.eqb (fst row) i) (map (fun z => (k, f z)) zs)
  = [].
Proof.
  intro D. induction zs as [| z zs IH]; simpl; [reflexivity |].
  destruct (Nat.eqb_spec k i); [contradiction | assumption].
Qed.

Lemma sjoin_rows_other_cities right (i : nat) (ls : list (nat * City G)) :
  ~ In i (map fst ls) ->
  filter (fun row : nat * ImpactedCity G => Nat.eqb (fst row) i)
    (flat_map
       (fun l => map (fun z => (fst l, joined (snd l) (fst z) (snd z)))
                     (filter (hits (snd l)) (rows right))) ls)
  = [].
Proof.
  induction ls as [| [k d] ls IH]; intro N; simpl; [reflexivity |].
  rewrite filter_app, IH.
  - rewrite app_nil_r.
    apply (filter_label_other (fun z => joined d (fst z) (snd z))).
    intro E. apply N. simpl. now left.
  - intro I. apply N. simpl. now right.
Qed.

Lemma filter_permutation {A : Type} (f : A -> bool) (l l' : list A) :
  Permutation l l' -> Permutation (filter f l) (filter f l').
Proof.
  induction 1 as [| x l l' P IH | x y l | l l' l'' P1 IH1 P2 IH2]; simpl.
  - constructor.
  - destruct (f x); [now constructor | assumption].
  - destruct (f x), (f y); try apply Permutation_refl. apply perm_swap.
  - now apply perm_trans with (filter f l').
Qed.

(** The rows of the join under one label, when labels name one city each:
    a row for every zone the city meets. *)
Lemma sjoin_rows_of_city left right (i : nat) (c : City G) :
  NoDup (map fst (rows left)) ->
  In (i, c) (rows left) ->
  Permutation
    (filter (fun row => Nat.eqb (fst row) i) (rows (sjoin left right)))
    (map (fun z => (i, joined c (fst z) (snd z))) (filter (hits c) (rows right))).
Proof.
  unfold sjoin. cbn [rows]. intros N I.
  eapply perm_trans.
  { apply filter_permutation. apply Permutation_sym.
    apply sjoin_order_permutation. }
  match goal with |- Permutation ?a ?b => replace a with b end;
    [apply Permutation_refl |]. symmetry.
  revert N I.
  induction (rows left) as [| [i' c'] ls IH]; intros N I; [destruct I |].
  simpl in *. rewrite filter_app. inversion N as [| ? ? Nh Nt]; subst.
  destruct (Nat.eq_dec i' i) as [-> | D].
  - assert (c' = c) as ->.
    { destruct I as [E | I]; [congruence |].
      exfalso. apply Nh. apply in_map_iff. now exists (i, c). }
    rewrite (sjoin_rows_other_cities right i ls Nh), app_nil_r.
    apply (filter_label_same (fun z => joined c (fst z) (snd z))).
  - destruct I as [E | I]; [congruence |].
    rewrite (IH Nt I).
    now rewrite (filter_label_other (fun z => joined c' (fst z) (snd z)) i i').
Qed.

Lemma labels_filter {A : Type} (p : nat * A -> bool) (l : list (nat * A)) :
  NoDup (map fst l) -> NoDup (map fst (filter p l)).
Proof.
  induction l as [| a l IH]; simpl; intro N; [constructor |].
  inversion N as [| ? ? Nh Nt]; subst.
  destruct (p a); simpl; [| now apply IH].
  constructor; [| now apply IH].
  intro I. apply Nh. apply in_map_iff in I. destruct I as [b [E I]].
  apply filter_In in I. apply in_map_iff. exists b. tauto.
Qed.

(** The zones carry the labels of the selected events. *)
Lemma zones_of_labels source quakes_gdf min_mag radius_km :
  map fst (rows (zones_of source quakes_gdf min_mag radius_km))
  = map fst (rows (select_mag quakes_gdf min_mag)).
Proof.
  unfold zones_of. simpl. rewrite map_map. apply map_ext. now intros [j q].
Qed.

Lemma perform_risk_analysis_join quakes_gdf cities_gdf min_mag radius_km
    cities_w_risk risk_zones :
  perform_risk_analysis quakes_gdf cities_gdf min_mag radius_km
  = Some (cities_w_risk, risk_zones) ->
  rows cities_w_risk = rows (sjoin cities_gdf risk_zones).
Proof.
  intro E.
  destruct (perform_risk_analysis_cases quakes_gdf cities_gdf min_mag radius_km)
    as [R | [R | [source [_ [_ R]]]]]; rewrite R in E; inversion E; subst.
  - now rewrite sjoin_no_zone.
  - reflexivity.
Qed.

End AnalysisFacts.

Section AnalysisClaims.

Context {G : Type} `{Shapely G} `{JoinOrder G}.

(** C3. Every risk zone, and every impacted-place row, comes from an
    event of magnitude at least [min_mag] and carries its attributes;
    with a threshold above every magnitude both outputs are empty and
    nothing is raised; and when the events have a reference system and
    there are places, every event that reaches the threshold has its
    zone. *)
Theorem magnitude_filter quakes_gdf cities_gdf min_mag radius_km :
  (forall cities_w_risk risk_zones,
      perform_risk_analysis quakes_gdf cities_gdf min_mag radius_km
      = Some (cities_w_risk, risk_zones) ->
      (forall j z, In (j, z) (rows risk_zones) ->
         exists q, In (j, q) (rows quakes_gdf) /\ min_mag <= mag q
                   /\ mag z = mag q /\ place z = place q /\ title z = title q)
      /\
      (forall i r, In (i, r) (rows cities_w_risk) ->
         exists q, In (index_right r, q) (rows quakes_gdf) /\ min_mag <= mag q
                   /\ Quake_Magnitude r = mag q))
  /\
  ((forall j q, In (j, q) (rows quakes_gdf) -> mag q < min_mag) ->
   perform_risk_analysis quakes_gdf cities_gdf min_mag radius_km
   = Some (empty_frame, empty_frame))
  /\
  (forall source j q,
      crs quakes_gdf = Some source -> rows cities_gdf <> [] ->
      In (j, q) (rows quakes_gdf) -> min_mag <= mag q ->
      exists cities_w_risk risk_zones z,
        perform_risk_analysis quakes_gdf cities_gdf min_mag radius_km
        = Some (cities_w_risk, risk_zones)
        /\ In (j, z) (rows risk_zones) /\ mag z = mag q).
Proof.
  split; [| split].
  - intros cities_w_risk risk_zones E.
    assert (Z : forall j z, In (j, z) (rows risk_zones) ->
              exists q, In (j, q) (rows quakes_gdf) /\ min_mag <= mag q
                        /\ mag z = mag q /\ place z = place q /\ title z = title q).
    { intros j z I.
      destruct (perform_risk_analysis_cases quakes_gdf cities_gdf min_mag radius_km)
        as [R | [R | [source [_ [_ R]]]]]; rewrite R in E; inversion E; subst.
      - destruct I.
      - apply zones_of_rows in I. destruct I as [q [I [M ->]]].
        exists q. simpl. auto. }
    split; [exact Z |].
    intros i r I.
    rewrite (perform_risk_analysis_join _ _ _ _ _ _ E) in I.
    apply sjoin_rows in I. destruct I as [c [j [z [_ [Iz [_ ->]]]]]].
    destruct (Z j z Iz) as [q [Iq [M [Em _]]]].
    exists q. simpl. auto.
  - intro L. apply perform_risk_analysis_no_quake. simpl.
    induction (rows quakes_gdf) as [| [j q] rs IH]; simpl; [reflexivity |].
    assert (Lq : mag q < min_mag) by (apply (L j); now left).
    replace (Qgeb (mag q) min_mag) with false.
    + apply IH. intros j' q' I. apply (L j'). now right.
    + symmetry. destruct (Qgeb (mag q) min_mag) eqn:B; [| reflexivity].
      apply Qgeb_true in B. exfalso. exact (Qlt_not_le _ _ Lq B).
  - intros source j q C Ec I M.
    assert (Iz : In (j, set_geometry q (zone_geometry source radius_km (geometry q)))
                    (rows (zones_of source quakes_gdf min_mag radius_km))).
    { apply zones_of_rows. now exists q. }
    exists (sjoin cities_gdf (zones_of source quakes_gdf min_mag radius_km)),
           (zones_of source quakes_gdf min_mag radius_km),
           (set_geometry q (zone_geometry source radius_km (geometry q))).
    split; [| split; [exact Iz | reflexivity]].
    apply perform_risk_analysis_zones; [assumption | assumption |].
    simpl. intro E. simpl in Iz. rewrite E in Iz. destruct Iz.
Qed.

(** C4. With no event or no place the analysis returns two empty frames
    and raises nothing. *)
Theorem no_data_no_risk quakes_gdf cities_gdf min_mag radius_km :
  rows quakes_gdf = [] \/ rows cities_gdf = [] ->
  perform_risk_analysis quakes_gdf cities_gdf min_mag radius_km
  = Some (empty_frame, empty_frame).
Proof. apply perform_risk_analysis_no_data. Qed.

(** C5, as the code has it.  No radius is refused.  Whatever [radius_km]
    is, positive or not, the analysis of events with a reference system
    returns normally, and the zone of every event that reaches the
    threshold is built from the buffer of distance [radius_km * 1000]
    around its projected point. *)
Theorem radius_is_not_checked source quakes_gdf cities_gdf min_mag radius_km :
  crs quakes_gdf = Some source ->
  rows cities_gdf <> [] ->
  rows (select_mag quakes_gdf min_mag) <> [] ->
  exists cities_w_risk risk_zones,
    perform_risk_analysis quakes_gdf cities_gdf min_mag radius_km
    = Some (cities_w_risk, risk_zones)
    /\ map fst (rows risk_zones) = map fst (rows (select_mag quakes_gdf min_mag))
    /\ forall j z, In (j, z) (rows risk_zones) ->
         exists q, In (j, q) (rows quakes_gdf)
           /\ geometry z =
              buffer (transform EPSG3857 EPSG4326
                        (corrected_geom
                           (buffer (transform source EPSG3857 (geometry q))
                                   (radius_km * 1000))))
                     0.
Proof.
  intros C Ec Es.
  exists (sjoin cities_gdf (zones_of source quakes_gdf min_mag radius_km)),
         (zones_of source quakes_gdf min_mag radius_km).
  split; [now apply perform_risk_analysis_zones |]. split.
  - apply zones_of_labels.
  - intros j z I. apply zones_of_rows in I. destruct I as [q [I [_ ->]]].
    exists q. split; [assumption | reflexivity].
Qed.

(** C9. A place that meets exactly two of the risk zones has exactly two
    rows in the output, one for each of the two zones, whatever their
    order: each row has the place's columns, the label of its zone as
    [index_right] and the magnitude, location and title of its zone; the
    two zones are those of two events that reach the threshold, and their
    labels differ when the events' labels do. *)
Theorem two_zones_two_records quakes_gdf cities_gdf min_mag radius_km
    cities_w_risk risk_zones (i : nat) (c : City G)
    (j1 j2 : nat) (z1 z2 : Quake G) :
  perform_risk_analysis quakes_gdf cities_gdf min_mag radius_km
  = Some (cities_w_risk, risk_zones) ->
  NoDup (map fst (rows cities_gdf)) ->
  In (i, c) (rows cities_gdf) ->
  Permutation
    (filter (fun zone : nat * Quake G =>
               intersects (city_point c) (geometry (snd zone)))
            (rows risk_zones))
    [(j1, z1); (j2, z2)] ->
  (exists r1 r2,
      Permutation (filter (fun row => Nat.eqb (fst row) i) (rows cities_w_risk))
                  [(i, r1); (i, r2)]
      /\ impacted_city r1 = c /\ index_right r1 = j1
      /\ Quake_Magnitude r1 = mag z1 /\ Quake_Location r1 = place z1
      /\ quake_title r1 = title z1
      /\ impacted_city r2 = c /\ index_right r2 = j2
      /\ Quake_Magnitude r2 = mag z2 /\ Quake_Location r2 = place z2
      /\ quake_title r2 = title z2)
  /\ (exists q1 q2,
        In (j1, q1) (rows quakes_gdf) /\ In (j2, q2) (rows quakes_gdf)
        /\ min_mag <= mag q1 /\ min_mag <= mag q2
        /\ mag z1 = mag q1 /\ mag z2 = mag q2)
  /\ (NoDup (map fst (rows quakes_gdf)) -> j1 <> j2).
Proof.
  intros E N I F. split; [| split].
  - exists (joined c j1 z1), (joined c j2 z2). split; [| simpl; auto 12].
    rewrite (perform_risk_analysis_join _ _ _ _ _ _ E).
    eapply perm_trans; [apply (sjoin_rows_of_city _ _ _ _ N I) |].
    exact (Permutation_map (fun z => (i, joined c (fst z) (snd z))) F).
  - assert (I1 : In (j1, z1) (rows risk_zones)).
    { apply (proj1 (filter_In (hits c) _ _)).
      apply (Permutation_in _ (Permutation_sym F)). simpl. auto. }
    assert (I2 : In (j2, z2) (rows risk_zones)).
    { apply (proj1 (filter_In (hits c) _ _)).
      apply (Permutation_in _ (Permutation_sym F)). simpl. auto. }
    destruct (perform_risk_analysis_cases quakes_gdf cities_gdf min_mag radius_km)
      as [R | [R | [source [_ [_ R]]]]]; rewrite R in E; inversion E; subst.
    + destruct I1.
    + apply zones_of_rows in I1, I2.
      destruct I1 as [q1 [A1 [M1 ->]]]. destruct I2 as [q2 [A2 [M2 ->]]].
      exists q1, q2. simpl. auto 10.
  - intro Nq.
    assert (Nz : NoDup (map fst (rows risk_zones))).
    { destruct (perform_risk_analysis_cases quakes_gdf cities_gdf min_mag radius_km)
        as [R | [R | [source [_ [_ R]]]]]; rewrite R in E; inversion E; subst.
      - constructor.
      - rewrite zones_of_labels. now apply labels_filter. }
    apply (labels_filter (hits c)) in Nz.
    apply (Permutation_NoDup (Permutation_map fst F)) in Nz. simpl in Nz.
    inversion Nz as [| ? ? Nh _]. intro D. apply Nh. simpl. now left.
Qed.

End AnalysisClaims.

(** ** The functions on concrete inputs *)

Section Runs.

Import BoxGeometry.


(** C5 fails on the code.  With radius 0 and with radius -1 the analysis
    returns normally: no place is impacted and the event has a zone, whose
    geometry is empty. *)
Lemma nonpositive_radius_not_rejected :
  0 <= 0 /\ -1 <= 0
  /\ perform_risk_analysis (frame [quake 5 0 0]) (frame [town 0 0]) 4 0
     = Some ({| crs := Some EPSG4326; rows := [] |},
             {| crs := Some EPSG4326;
                rows := [(0%nat, set_geometry (quake 5 0 0) [])] |})
  /\ perform_risk_analysis (frame [quake 5 0 0]) (frame [town 0 0]) 4 (-1)
     = Some ({| crs := Some EPSG4326; rows := [] |},
             {| crs := Some EPSG4326;
                rows := [(0%nat, set_geometry (quake 5 0 0) [])] |}).
Proof.
  split; [discriminate |]. split; [discriminate |].
  split; vm_compute; reflexivity.
Qed.

(** C8 on the code.  An event of magnitude 5 at longitude 180, latitude 0,
    and a place at the same point, with the default threshold and radius:
    the event has its zone, the place does not meet it, and no place is
    impacted.  The projected epicentre is east of [MERCATOR_WORLD_MAX_X],
    so it falls in the part that is moved west, and no part of the zone
    reaches longitude 180. *)
Theorem epicentre_on_antimeridian_missed :
  MIN_MAGNITUDE <= mag (quake 5 180 0)
  /\ 0 < RISK_RADIUS_KM
  /\ city_point (town 180 0) = geometry (quake 5 180 0)
  /\ MERCATOR_WORLD_MAX_X < maxx_of (transform EPSG4326 EPSG3857 (point 180 0))
  /\ exists zone,
       perform_risk_analysis quakes_dateline towns_dateline
         MIN_MAGNITUDE RISK_RADIUS_KM
       = Some ({| crs := Some EPSG4326; rows := [] |},
               {| crs := Some EPSG4326; rows := [(0%nat, zone)] |})
       /\ intersects (city_point (town 180 0)) (geometry zone) = false
       /\ maxx_of (geometry zone) < 180.
Proof.
  split; [discriminate |]. split; [reflexivity |]. split; [reflexivity |].
  split; [reflexivity |].
  exists (set_geometry (quake 5 180 0)
            (zone_geometry EPSG4326 RISK_RADIUS_KM (point 180 0))).
  split; [vm_compute; reflexivity |]. split; vm_compute; reflexivity.
Qed.

(** A tenth of a degree west of the antimeridian the zone is split as
    intended: the place at the epicentre and a place on the other side of
    the antimeridian are both impacted. *)
Example epicentre_near_antimeridian_found :
  Permutation
    (map (fun row => (fst row, index_right (snd row)))
         (rows (fst (returned
            (perform_risk_analysis (frame [quake 5 179.9 0])
               (frame [town 179.9 0; town (-179.9) 0; town 0 0])
               MIN_MAGNITUDE RISK_RADIUS_KM)))))
    [(0%nat, 0%nat); (1%nat, 0%nat)].
Proof. vm_compute. apply Permutation_refl. Qed.

(** [over_east] and [over_west] are split. *)
Lemma one_sided_overflow_split_witness :
  nth_error (handle_antimeridian_buffers [inland; over_east]) 1%nat
  = Some [(20000000, -50000, 20037508.34, 50000);
          (-1001875417 # 50, -50000, -499375417 # 25, 50000)]
  /\ nth_error (handle_antimeridian_buffers [over_west]) 0%nat
     = Some [(-20037508.34, -50000, -20000000, 50000);
             (499375417 # 25, -50000, 1001875417 # 50, 50000)].
Proof.
  split.
  - refine (proj1 (proj1 (one_sided_overflow_split
                            [inland; over_east] 1%nat over_east eq_refl) _ _)).
    + reflexivity.
    + discriminate.
  - refine (proj1 (proj2 (one_sided_overflow_split
                            [over_west] 0%nat over_west eq_refl) _ _)).
    + reflexivity.
    + discriminate.
Defined.


Lemma inside_world_identity_witness :
  nth_error (handle_antimeridian_buffers [over_east; inland]) 1%nat = Some inland
  /\ handle_antimeridian_buffers [inland; inland] = [inland; inland].
Proof.
  split.
  - refine (proj1 (proj1 (inside_world_identity [over_east; inland])
                         1%nat inland eq_refl _ _)); discriminate.
  - apply (proj2 (inside_world_identity [inland; inland])).
    repeat constructor; discriminate.
Defined.

(** Threshold 7 is above every magnitude of [quakes_gulf]; with threshold
    4 the zones are those of the events labelled 0 and 2. *)
Lemma magnitude_filter_witness :
  perform_risk_analysis quakes_gulf towns_gulf 7 50
  = Some (empty_frame, empty_frame)
  /\ (forall j z,
        In (j, z) (rows (snd (returned
               (perform_risk_analysis quakes_gulf towns_gulf 4 50)))) ->
        exists q, In (j, q) (rows quakes_gulf) /\ 4 <= mag q
                  /\ mag z = mag q /\ place z = place q /\ title z = title q)
  /\ (exists cities_w_risk risk_zones z,
        perform_risk_analysis quakes_gulf towns_gulf 4 50
        = Some (cities_w_risk, risk_zones)
        /\ In (2%nat, z) (rows risk_zones) /\ mag z = mag (quake 6 0.1 0)).
Proof.
  split; [| split].
  - apply (proj1 (proj2 (magnitude_filter quakes_gulf towns_gulf 7 50))).
    intros j q [E | [E | [E | []]]]; inversion E; reflexivity.
  - refine (proj1 (proj1 (magnitude_filter quakes_gulf towns_gulf 4 50)
                     (fst (returned (perform_risk_analysis quakes_gulf towns_gulf 4 50)))
                     (snd (returned (perform_risk_analysis quakes_gulf towns_gulf 4 50)))
                     _)).
    vm_compute. reflexivity.
  - apply (proj2 (proj2 (magnitude_filter quakes_gulf towns_gulf 4 50))
             EPSG4326 2%nat (quake 6 0.1 0)).
    + reflexivity.
    + discriminate.
    + simpl. auto.
    + discriminate.
Defined.

Lemma no_data_no_risk_witness :
  perform_risk_analysis (frame []) towns_gulf 4 50 = Some (empty_frame, empty_frame)
  /\ perform_risk_analysis quakes_gulf (frame []) 4 50
     = Some (empty_frame, empty_frame).
Proof.
  split; apply no_data_no_risk; [left | right]; reflexivity.
Defined.

Lemma radius_is_not_checked_witness :
  exists cities_w_risk risk_zones,
    perform_risk_analysis quakes_gulf towns_gulf 4 (-1)
    = Some (cities_w_risk, risk_zones)
    /\ map fst (rows risk_zones) = map fst (rows (select_mag quakes_gulf 4))
    /\ forall j z, In (j, z) (rows risk_zones) ->
         exists q, In (j, q) (rows quakes_gulf)
           /\ geometry z =
              buffer (transform EPSG3857 EPSG4326
                        (corrected_geom
                           (buffer (transform EPSG4326 EPSG3857 (geometry q))
                                   (-1 * 1000))))
                     0.
Proof.
  apply (radius_is_not_checked EPSG4326 quakes_gulf towns_gulf 4 (-1)).
  - reflexivity.
  - discriminate.
  - vm_compute. discriminate.
Defined.

(** The first place of [towns_gulf] meets the zones of the events
    labelled 0 and 2, and has the two rows. *)
Lemma two_zones_two_records_witness :
  let out := returned (perform_risk_analysis quakes_gulf towns_gulf 4 50) in
  let z1 := set_geometry (quake 5 0 0) (zone_geometry EPSG4326 50 (point 0 0)) in
  let z2 := set_geometry (quake 6 0.1 0) (zone_geometry EPSG4326 50 (point 0.1 0)) in
  (exists r1 r2,
      Permutation (filter (fun row => Nat.eqb (fst row) 0%nat) (rows (fst out)))
                  [(0%nat, r1); (0%nat, r2)]
      /\ impacted_city r1 = town 0.05 0 /\ index_right r1 = 0%nat
      /\ Quake_Magnitude r1 = mag z1 /\ Quake_Location r1 = place z1
      /\ quake_title r1 = title z1
      /\ impacted_city r2 = town 0.05 0 /\ index_right r2 = 2%nat
      /\ Quake_Magnitude r2 = mag z2 /\ Quake_Location r2 = place z2
      /\ quake_title r2 = title z2)
  /\ (exists q1 q2,
        In (0%nat, q1) (rows quakes_gulf) /\ In (2%nat, q2) (rows quakes_gulf)
        /\ 4 <= mag q1 /\ 4 <= mag q2
        /\ mag z1 = mag q1 /\ mag z2 = mag q2)
  /\ (NoDup (map fst (rows quakes_gulf)) -> 0%nat <> 2%nat).
Proof.
  intros out z1 z2.
  apply (two_zones_two_records quakes_gulf towns_gulf 4 50 (fst out) (snd out)).
  - vm_compute. reflexivity.
  - vm_compute. repeat constructor; simpl; intuition discriminate.
  - simpl. auto.
  - vm_compute. apply Permutation_refl.
Defined.

End Runs.

(** ** Further properties of the analysis *)

Section AnalysisLaws.

Context {G : Type} `{Shapely G} `{JoinOrder G}.

Lemma select_mag_nonempty quakes_gdf min_mag :
  rows (select_mag quakes_gdf min_mag) <> [] <->
  exists (j : nat) (q : Quake G), In (j, q) (rows quakes_gdf) /\ min_mag <= mag q.
Proof.
  simpl. split.
  - intro E. destruct (filter _ (rows quakes_gdf)) as [| [j q] rs] eqn:F;
      [congruence |].
    assert (I : In (j, q) (filter (fun r : nat * Quake G => Qgeb (mag (snd r)) min_mag)
                             (rows quakes_gdf))) by (rewrite F; now left).
    apply filter_In in I. destruct I as [I M]. exists j, q.
    split; [assumption | now apply Qgeb_true].
  - intros [j [q [I M]]] E.
    assert (I' : In (j, q) (filter (fun r : nat * Quake G => Qgeb (mag (snd r)) min_mag)
                              (rows quakes_gdf))).
    { apply filter_In. split; [assumption | now apply Qgeb_true]. }
    rewrite E in I'. destruct I'.
Qed.

(** The frame of zones is never left without a reference system, and its
    rows are those of [zones_of], whenever the analysis returns. *)
Lemma perform_risk_analysis_returns quakes_gdf cities_gdf min_mag radius_km
    cities_w_risk risk_zones :
  perform_risk_analysis quakes_gdf cities_gdf min_mag radius_km
  = Some (cities_w_risk, risk_zones) ->
  (cities_w_risk = empty_frame /\ risk_zones = empty_frame
   /\ (rows cities_gdf = [] \/ rows (select_mag quakes_gdf min_mag) = []))
  \/ (exists source,
        crs quakes_gdf = Some source /\ rows cities_gdf <> []
        /\ rows (select_mag quakes_gdf min_mag) <> []
        /\ risk_zones = zones_of source quakes_gdf min_mag radius_km
        /\ cities_w_risk = sjoin cities_gdf risk_zones).
Proof.
  intro E.
  destruct (rows cities_gdf) as [| c cs] eqn:Ec.
  { rewrite perform_risk_analysis_no_data in E by now right.
    inversion E. left. auto. }
  destruct (rows (select_mag quakes_gdf min_mag)) as [| q qs] eqn:Es.
  { rewrite perform_risk_analysis_no_quake in E by assumption.
    inversion E. left. auto. }
  destruct (crs quakes_gdf) as [source |] eqn:C.
  - rewrite (perform_risk_analysis_zones source) in E by congruence.
    inversion E. right. exists source. repeat split; congruence.
  - rewrite perform_risk_analysis_naive in E by congruence. discriminate.
Qed.

(** X1. The impacted places are exactly the pairs of a place and a
    returned zone whose geometries intersect: every such pair has its row,
    under the place's label and with the zone's label and attributes, and
    there is no other row. *)
Theorem impacted_rows_are_the_intersecting_pairs
    quakes_gdf cities_gdf min_mag radius_km cities_w_risk risk_zones :
  perform_risk_analysis quakes_gdf cities_gdf min_mag radius_km
  = Some (cities_w_risk, risk_zones) ->
  forall i r,
    In (i, r) (rows cities_w_risk) <->
    exists c j z,
      In (i, c) (rows cities_gdf) /\ In (j, z) (rows risk_zones)
      /\ intersects (city_point c) (geometry z) = true
      /\ impacted_city r = c /\ index_right r = j
      /\ Quake_Magnitude r = mag z /\ Quake_Location r = place z
      /\ quake_title r = title z.
Proof.
  intros E i r. rewrite (perform_risk_analysis_join _ _ _ _ _ _ E).
  rewrite sjoin_rows. split.
  - intros [c [j [z [Ic [Iz [Hz ->]]]]]]. exists c, j, z. simpl. auto 10.
  - intros [c [j [z [Ic [Iz [Hz [E1 [E2 [E3 [E4 E5]]]]]]]]]].
    exists c, j, z. repeat split; try assumption.
    destruct r. simpl in *. subst. reflexivity.
Qed.

(** X2. Events without a reference system.  The analysis of such a frame
    raises exactly when there are places and an event reaches the
    threshold, at the first [to_crs]; otherwise it stops at one of the two
    early returns and gives two empty frames. *)
Theorem analysis_of_events_without_crs quakes_gdf cities_gdf min_mag radius_km :
  crs quakes_gdf = None ->
  (perform_risk_analysis quakes_gdf cities_gdf min_mag radius_km = None <->
   rows cities_gdf <> []
   /\ exists (j : nat) (q : Quake G), In (j, q) (rows quakes_gdf) /\ min_mag <= mag q)
  /\ (perform_risk_analysis quakes_gdf cities_gdf min_mag radius_km <> None ->
      perform_risk_analysis quakes_gdf cities_gdf min_mag radius_km
      = Some (empty_frame, empty_frame)).
Proof.
  intro C.
  destruct (rows cities_gdf) as [| c cs] eqn:Ec.
  { rewrite perform_risk_analysis_no_data by now right.
    split; [| intros _; reflexivity]. split; [discriminate |].
    intros [N _]. now contradiction N. }
  destruct (rows (select_mag quakes_gdf min_mag)) as [| q qs] eqn:Es.
  { rewrite perform_risk_analysis_no_quake by assumption.
    split; [| intros _; reflexivity]. split; [discriminate |].
    intros [_ Q]. apply select_mag_nonempty in Q. congruence. }
  rewrite perform_risk_analysis_naive by congruence.
  split; [| intro N; now contradiction N]. split; [| reflexivity]. intros _.
  split; [discriminate |]. apply select_mag_nonempty. congruence.
Qed.

Lemma select_mag_raise quakes_gdf (m1 m2 : Q) :
  m1 <= m2 ->
  rows (select_mag quakes_gdf m2)
  = filter (fun r : nat * Quake G => Qgeb (mag (snd r)) m2) (rows (select_mag quakes_gdf m1)).
Proof.
  intro L. simpl. induction (rows quakes_gdf) as [| r rs IH]; simpl; [reflexivity |].
  destruct (Qgeb (mag (snd r)) m2) eqn:B2.
  - assert (B1 : Qgeb (mag (snd r)) m1 = true).
    { apply Qgeb_true. apply Qgeb_true in B2. now apply Qle_trans with m2. }
    rewrite B1. simpl. rewrite B2. now rewrite IH.
  - destruct (Qgeb (mag (snd r)) m1); simpl; [rewrite B2 |]; exact IH.
Qed.

Lemma zones_of_raise source quakes_gdf (m1 m2 radius_km : Q) :
  m1 <= m2 ->
  rows (zones_of source quakes_gdf m2 radius_km)
  = filter (fun r : nat * Quake G => Qgeb (mag (snd r)) m2)
           (rows (zones_of source quakes_gdf m1 radius_km)).
Proof.
  intro L. unfold zones_of. cbn [rows]. rewrite (select_mag_raise _ m1 m2 L).
  induction (rows (select_mag quakes_gdf m1)) as [| r rs IH]; simpl; [reflexivity |].
  destruct (Qgeb (mag (snd r)) m2); simpl; now rewrite IH.
Qed.

(** X3. Raising the threshold only removes: if the analysis returns for
    [m1] and [m1 <= m2], it returns for [m2], its zones are the zones for
    [m1] of magnitude at least [m2], unchanged and in the same order, and
    its impacted rows are the rows for [m1] of magnitude at least [m2]. *)
Theorem raising_threshold_only_removes
    quakes_gdf cities_gdf (m1 m2 radius_km : Q) cities1 zones1 :
  m1 <= m2 ->
  perform_risk_analysis quakes_gdf cities_gdf m1 radius_km = Some (cities1, zones1) ->
  exists cities2 zones2,
    perform_risk_analysis quakes_gdf cities_gdf m2 radius_km = Some (cities2, zones2)
    /\ rows zones2 = filter (fun r : nat * Quake G => Qgeb (mag (snd r)) m2) (rows zones1)
    /\ forall i r, In (i, r) (rows cities2) <->
                   In (i, r) (rows cities1) /\ m2 <= Quake_Magnitude r.
Proof.
  intros L E1.
  destruct (perform_risk_analysis_returns _ _ _ _ _ _ E1)
    as [[-> [-> Early]] | [source [C [Ec [Es1 [-> ->]]]]]].
  - exists empty_frame, empty_frame. split; [| split].
    + destruct Early as [Ec | Es1].
      * apply perform_risk_analysis_no_data. now right.
      * apply perform_risk_analysis_no_quake.
        rewrite (select_mag_raise _ m1 m2 L), Es1. reflexivity.
    + reflexivity.
    + simpl. tauto.
  - assert (J : forall i r,
               In (i, r) (rows (sjoin cities_gdf
                                  (zones_of source quakes_gdf m2 radius_km))) <->
               In (i, r) (rows (sjoin cities_gdf
                                  (zones_of source quakes_gdf m1 radius_km)))
               /\ m2 <= Quake_Magnitude r).
    { intros i r. rewrite !sjoin_rows. rewrite (zones_of_raise _ _ m1 m2 _ L). split.
      - intros [c [j [z [Ic [Iz [Hz ->]]]]]]. apply filter_In in Iz.
        destruct Iz as [Iz M]. split.
        + exists c, j, z. auto.
        + simpl. now apply Qgeb_true.
      - intros [[c [j [z [Ic [Iz [Hz ->]]]]]] M]. exists c, j, z.
        repeat split; try assumption. apply filter_In. split; [assumption |].
        simpl in *. now apply Qgeb_true. }
    destruct (rows (select_mag quakes_gdf m2)) as [| q qs] eqn:Es2.
    + exists empty_frame, empty_frame. split; [| split].
      * now apply perform_risk_analysis_no_quake.
      * rewrite <- (zones_of_raise _ _ m1 m2 _ L). unfold zones_of. cbn [rows].
        now rewrite Es2.
      * intros i r. rewrite <- J. rewrite sjoin_no_zone.
        -- reflexivity.
        -- unfold zones_of. cbn [rows]. now rewrite Es2.
    + exists (sjoin cities_gdf (zones_of source quakes_gdf m2 radius_km)),
             (zones_of source quakes_gdf m2 radius_km).
      split; [| split].
      * apply perform_risk_analysis_zones; congruence.
      * now apply zones_of_raise.
      * exact J.
Qed.

(** The run on any frame of places, once the events have a reference
    system and one of them reaches the threshold. *)
Lemma perform_risk_analysis_on_places source quakes_gdf
    (places : GeoDataFrame (City G)) min_mag radius_km :
  crs quakes_gdf = Some source ->
  rows (select_mag quakes_gdf min_mag) <> [] ->
  exists cities_w_risk risk_zones,
    perform_risk_analysis quakes_gdf places min_mag radius_km
    = Some (cities_w_risk, risk_zones)
    /\ forall i r,
         In (i, r) (rows cities_w_risk) <->
         In (i, r) (rows (sjoin places (zones_of source quakes_gdf min_mag radius_km))).
Proof.
  intros C Es. destruct (rows places) as [| p ps] eqn:Ep.
  - exists empty_frame, empty_frame. split.
    + apply perform_risk_analysis_no_data. now right.
    + intros i r. rewrite sjoin_rows. rewrite Ep. simpl. split; [tauto |].
      intros [c [j [z [[] _]]]].
  - exists (sjoin places (zones_of source quakes_gdf min_mag radius_km)),
           (zones_of source quakes_gdf min_mag radius_km).
    split; [| tauto]. apply perform_risk_analysis_zones; congruence.
Qed.

(** X4. Places are judged one by one: when the places are split in two
    frames, both analyses return if the analysis of all places does, and a
    row is impacted in the whole exactly when it is impacted in one of the
    two parts. *)
Theorem places_are_judged_independently
    quakes_gdf (cities_gdf part1 part2 : GeoDataFrame (City G))
    min_mag radius_km cities_w_risk risk_zones :
  rows cities_gdf = rows part1 ++ rows part2 ->
  perform_risk_analysis quakes_gdf cities_gdf min_mag radius_km
  = Some (cities_w_risk, risk_zones) ->
  exists impacted1 zones1 impacted2 zones2,
    perform_risk_analysis quakes_gdf part1 min_mag radius_km
    = Some (impacted1, zones1)
    /\ perform_risk_analysis quakes_gdf part2 min_mag radius_km
       = Some (impacted2, zones2)
    /\ forall i r,
         In (i, r) (rows cities_w_risk) <->
         In (i, r) (rows impacted1) \/ In (i, r) (rows impacted2).
Proof.
  intros S E.
  destruct (perform_risk_analysis_returns _ _ _ _ _ _ E)
    as [[-> [-> Early]] | [source [C [Ec [Es [-> ->]]]]]].
  - exists empty_frame, empty_frame, empty_frame, empty_frame.
    assert (R : forall places : GeoDataFrame (City G),
               rows places = [] \/ rows (select_mag quakes_gdf min_mag) = [] ->
               perform_risk_analysis quakes_gdf places min_mag radius_km
               = Some (empty_frame, empty_frame)).
    { intros places [Ep | Eq].
      - apply perform_risk_analysis_no_data. now right.
      - now apply perform_risk_analysis_no_quake. }
    destruct Early as [Ec | Es].
    + rewrite Ec in S. symmetry in S. apply app_eq_nil in S. destruct S as [S1 S2].
      split; [apply R; now left |]. split; [apply R; now left |]. simpl. tauto.
    + split; [apply R; now right |]. split; [apply R; now right |]. simpl. tauto.
  - destruct (perform_risk_analysis_on_places source quakes_gdf part1
                min_mag radius_km C Es) as [impacted1 [zones1 [E1 J1]]].
    destruct (perform_risk_analysis_on_places source quakes_gdf part2
                min_mag radius_km C Es) as [impacted2 [zones2 [E2 J2]]].
    exists impacted1, zones1, impacted2, zones2.
    split; [exact E1 |]. split; [exact E2 |].
    intros i r. rewrite J1, J2, !sjoin_rows. rewrite S. split.
    + intros [c [j [z [Ic [Iz [Hz ->]]]]]]. apply in_app_iff in Ic.
      destruct Ic as [Ic | Ic]; [left | right]; exists c, j, z; auto.
    + intros [[c [j [z [Ic [Iz [Hz ->]]]]]] | [c [j [z [Ic [Iz [Hz ->]]]]]]];
        exists c, j, z; repeat split; try assumption;
        apply in_app_iff; [left | right]; assumption.
Qed.

(** X5. The risk zones do not depend on which places are given, as long as
    there is one: two analyses of the same events against two frames of
    places that are not empty raise together and return the same zones. *)
Theorem zones_do_not_depend_on_places
    quakes_gdf (places1 places2 : GeoDataFrame (City G)) min_mag radius_km :
  rows places1 <> [] ->
  rows places2 <> [] ->
  option_map snd (perform_risk_analysis quakes_gdf places1 min_mag radius_km)
  = option_map snd (perform_risk_analysis quakes_gdf places2 min_mag radius_km).
Proof.
  intros E1 E2.
  destruct (rows (select_mag quakes_gdf min_mag)) as [| q qs] eqn:Es.
  { now rewrite !perform_risk_analysis_no_quake. }
  destruct (crs quakes_gdf) as [source |] eqn:C.
  - rewrite !(perform_risk_analysis_zones source) by congruence. reflexivity.
  - rewrite !perform_risk_analysis_naive by congruence. reflexivity.
Qed.

End AnalysisLaws.

(** ** The downloads and the dashboard *)

Section DashboardFacts.

Context {G : Type} `{Shapely G} `{JoinOrder G} `{Presentation G}.

(** X6. A download that fails costs the analysis nothing but its result:
    whichever of the two feeds could not be read, the analysis of what
    [fetch_live_data] returned raises nothing and returns two empty
    frames. *)
Theorem failed_download_gives_empty_analysis
    (read_quakes : string -> option (GeoDataFrame (Quake G)))
    (read_cities : string -> option (GeoDataFrame (City G)))
    (url_quakes name_quakes url_cities name_cities : string)
    (min_mag radius_km : Q) :
  read_quakes url_quakes = None \/ read_cities url_cities = None ->
  perform_risk_analysis (fetch_live_data read_quakes url_quakes name_quakes)
                        (fetch_live_data read_cities url_cities name_cities)
                        min_mag radius_km
  = Some (empty_frame, empty_frame).
Proof.
  intro E. apply perform_risk_analysis_no_data. unfold fetch_live_data.
  destruct E as [E | E]; rewrite E; [left | right]; reflexivity.
Qed.

Lemma for_each_length {A B : Type} (body : A -> option B) (l : list A) bs :
  for_each body l = Some bs -> List.length bs = List.length l.
Proof.
  revert bs. induction l as [| a l IH]; simpl; intros bs E.
  - inversion E. reflexivity.
  - destruct (body a) as [b |]; simpl in E; [| discriminate].
    destruct (for_each body l) as [bs' |]; simpl in E; [| discriminate].
    inversion E; subst. simpl. now rewrite (IH bs').
Qed.

Lemma for_each_fails {A B : Type} (body : A -> option B) (l : list A) (a : A) :
  In a l -> body a = None -> for_each body l = None.
Proof.
  induction l as [| a' l IH]; simpl; intros I E; [destruct I |].
  destruct I as [-> | I].
  - now rewrite E.
  - destruct (body a'); simpl; [| reflexivity]. now rewrite (IH I E).
Qed.

Lemma heat_data_of_crs (risk_zones : GeoDataFrame (Quake G)) :
  crs risk_zones = None -> heat_data_of risk_zones = None.
Proof.
  intro C. unfold heat_data_of, to_crs. now rewrite C.
Qed.

Lemma heat_data_of_length (risk_zones : GeoDataFrame (Quake G)) heat_data :
  heat_data_of risk_zones = Some heat_data ->
  List.length heat_data = List.length (rows risk_zones)
  /\ map (fun t => snd t) heat_data = map (fun r => mag (snd r)) (rows risk_zones).
Proof.
  unfold heat_data_of, to_crs. destruct (crs risk_zones); simpl; [| discriminate].
  rewrite map_map. cbn [fst snd].
  revert heat_data. induction (rows risk_zones) as [| r rs IH]; simpl; intros h E.
  - inversion E. auto.
  - destruct (point_y _); simpl in E; [| discriminate].
    destruct (point_x _); simpl in E; [| discriminate].
    destruct (for_each _ _) as [h' |]; simpl in E; [| discriminate].
    inversion E; subst. simpl. destruct (IH h' eq_refl) as [L W].
    split; [now rewrite L | now rewrite W].
Qed.

Lemma heat_data_of_no_coordinates (risk_zones : GeoDataFrame (Quake G))
    source (j : nat) (z : Quake G) :
  crs risk_zones = Some source ->
  In (j, z) (rows risk_zones) ->
  point_y (transform EPSG3857 EPSG4326
             (centroid (transform source EPSG3857 (geometry z)))) = None ->
  heat_data_of risk_zones = None.
Proof.
  intros C I E. unfold heat_data_of, to_crs. rewrite C. simpl.
  rewrite map_map. cbn [fst snd].
  induction (rows risk_zones) as [| r rs IH]; simpl; [destruct I |].
  destruct I as [-> | I].
  - simpl. now rewrite E.
  - match goal with
    | |- bind (bind (point_y ?g) _) _ = None => destruct (point_y g), (point_x g)
    end; simpl; try reflexivity.
    specialize (IH I). simpl in IH. now rewrite IH.
Qed.

(** The children of the map, in closed form. *)
Lemma dashboard_map_children impact_cities risk_zones (m : Map G) :
  dashboard_map impact_cities risk_zones = Some m ->
  exists zone_layers city_layers,
    children m
    = TileLayer "CartoDB dark_matter" :: zone_layers ++ city_layers ++ [LayerControl]
    /\ (rows risk_zones = [] -> zone_layers = [])
    /\ (rows risk_zones <> [] ->
        exists heat_data,
          zone_layers = [HeatMap heat_data; GeoJson risk_zones]
          /\ List.length heat_data = List.length (rows risk_zones)
          /\ map (fun t => snd t) heat_data
             = map (fun r => mag (snd r)) (rows risk_zones))
    /\ (rows impact_cities = [] -> city_layers = [])
    /\ (rows impact_cities <> [] ->
        exists markers,
          city_layers = [FeatureGroup "Impacted Cities" markers]
          /\ List.length markers = List.length (rows impact_cities)).
Proof.
  unfold dashboard_map.
  destruct (empty risk_zones) eqn:Ez; destruct (empty impact_cities) eqn:Ei;
    cbn [negb bind].
  - apply empty_true in Ez, Ei. intro E. inversion E; subst. clear E.
    exists [], []. repeat split; try reflexivity; congruence.
  - apply empty_true in Ez. apply empty_false in Ei.
    destruct (for_each _ (rows impact_cities)) as [markers |] eqn:Em;
      cbn [bind]; [| discriminate].
    intro E. inversion E; subst. clear E.
    exists [], [FeatureGroup "Impacted Cities" markers].
    repeat split; try reflexivity; try congruence.
    intros _. exists markers. split; [reflexivity |].
    now apply for_each_length in Em.
  - apply empty_false in Ez. apply empty_true in Ei.
    destruct (heat_data_of risk_zones) as [heat_data |] eqn:Eh;
      cbn [bind]; [| discriminate].
    intro E. inversion E; subst. clear E.
    exists [HeatMap heat_data; GeoJson risk_zones], [].
    repeat split; try reflexivity; try congruence.
    intros _. exists heat_data. split; [reflexivity |].
    now apply heat_data_of_length.
  - apply empty_false in Ez, Ei.
    destruct (heat_data_of risk_zones) as [heat_data |] eqn:Eh;
      cbn [bind]; [| discriminate].
    destruct (for_each _ (rows impact_cities)) as [markers |] eqn:Em;
      cbn [bind]; [| discriminate].
    intro E. inversion E; subst. clear E.
    exists [HeatMap heat_data; GeoJson risk_zones],
           [FeatureGroup "Impacted Cities" markers].
    repeat split; try reflexivity; try congruence.
    + intros _. exists heat_data. split; [reflexivity |].
      now apply heat_data_of_length.
    + intros _. exists markers. split; [reflexivity |].
      now apply for_each_length in Em.
Qed.

Lemma create_dashboard_saved_map impact_cities risk_zones out_dir (d : Dashboard G) :
  create_dashboard impact_cities risk_zones out_dir = Some d ->
  dashboard_map impact_cities risk_zones = Some (saved_map d)
  /\ save (path_join out_dir "seismic_risk_map.html") (saved_map d) = true.
Proof.
  unfold create_dashboard.
  destruct (dashboard_map impact_cities risk_zones) as [m |]; cbn [bind];
    [| discriminate].
  destruct (save _ m) eqn:S; [| discriminate].
  destruct (negb (empty impact_cities)); intro E; inversion E; subst; simpl; auto.
Qed.

(** X7. What the map holds.  Its first child is the layer of tiles and its
    last the layer control.  Between them come the heat map and the layer
    of zones, both or neither, there exactly when there is a zone, the heat
    map with one triple per zone weighted by the zone's magnitude; then the
    group of markers, there exactly when a place is impacted, with one
    marker per impacted row. *)
Theorem map_layers impact_cities risk_zones out_dir (d : Dashboard G) :
  create_dashboard impact_cities risk_zones out_dir = Some d ->
  exists zone_layers city_layers,
    children (saved_map d)
    = TileLayer "CartoDB dark_matter" :: zone_layers ++ city_layers ++ [LayerControl]
    /\ (rows risk_zones = [] -> zone_layers = [])
    /\ (rows risk_zones <> [] ->
        exists heat_data,
          zone_layers = [HeatMap heat_data; GeoJson risk_zones]
          /\ List.length heat_data = List.length (rows risk_zones)
          /\ map (fun t => snd t) heat_data
             = map (fun r => mag (snd r)) (rows risk_zones))
    /\ (rows impact_cities = [] -> city_layers = [])
    /\ (rows impact_cities <> [] ->
        exists markers,
          city_layers = [FeatureGroup "Impacted Cities" markers]
          /\ List.length markers = List.length (rows impact_cities)).
Proof.
  intro E. apply create_dashboard_saved_map in E. destruct E as [E _].
  now apply dashboard_map_children.
Qed.

(** X8. The dictionary that is returned always has the path of the saved
    map, [out_dir] joined with the file name, and the file name; it has
    the path of the chart exactly when a place is impacted and the image
    could be written, a failed write being passed over in silence. *)
Theorem dashboard_outputs impact_cities risk_zones out_dir (d : Dashboard G) :
  create_dashboard impact_cities risk_zones out_dir = Some d ->
  dict_get (outputs d) "map_path"
  = Some (path_join out_dir "seismic_risk_map.html")
  /\ dict_get (outputs d) "map_filename" = Some "seismic_risk_map.html"%string
  /\ (dict_get (outputs d) "chart_png"
      = Some (path_join out_dir "risk_chart.png") <->
      rows impact_cities <> []
      /\ write_image (path_join out_dir "risk_chart.png")
                     (bar_chart (top_cities impact_cities)) = true)
  /\ (dict_get (outputs d) "chart_png" = None <->
      rows impact_cities = []
      \/ write_image (path_join out_dir "risk_chart.png")
                     (bar_chart (top_cities impact_cities)) = false).
Proof.
  unfold create_dashboard.
  destruct (dashboard_map impact_cities risk_zones) as [m |]; simpl;
    [| discriminate].
  destruct (save _ m); [| discriminate].
  destruct (empty impact_cities) eqn:Ei; simpl.
  - apply empty_true in Ei. intro E. inversion E; subst. clear E. simpl.
    repeat split; try tauto; try discriminate; try (intros [? _]; contradiction).
  - apply empty_false in Ei.
    destruct (write_image _ _) eqn:W; intro E; inversion E; subst; clear E; simpl.
    + repeat split; auto; try discriminate.
      intros [? | ?]; [contradiction | discriminate].
    + repeat split; auto; try discriminate. intros [_ ?]. discriminate.
Qed.

(** X9. When [create_dashboard] raises.  It raises when there are zones and
    their frame has no reference system, and when a zone's centroid, once
    reprojected, has no coordinates to read; and once the map is built it
    raises exactly when the map cannot be saved, whether or not the image
    of the chart can be written. *)
Theorem dashboard_raises impact_cities risk_zones out_dir :
  (rows risk_zones <> [] -> crs risk_zones = None ->
   create_dashboard impact_cities risk_zones out_dir = None)
  /\ (forall source (j : nat) (z : Quake G),
         crs risk_zones = Some source ->
         In (j, z) (rows risk_zones) ->
         point_y (transform EPSG3857 EPSG4326
                    (centroid (transform source EPSG3857 (geometry z)))) = None ->
         create_dashboard impact_cities risk_zones out_dir = None)
  /\ (forall m,
         dashboard_map impact_cities risk_zones = Some m ->
         (create_dashboard impact_cities risk_zones out_dir = None <->
          save (path_join out_dir "seismic_risk_map.html") m = false)).
Proof.
  split; [| split].
  - intros Ez C. unfold create_dashboard, dashboard_map.
    apply empty_false in Ez. rewrite Ez. cbn [negb bind].
    now rewrite (heat_data_of_crs _ C).
  - intros source j z C I E. unfold create_dashboard, dashboard_map.
    assert (Ez : rows risk_zones <> []) by (intro N; rewrite N in I; destruct I).
    apply empty_false in Ez. rewrite Ez. cbn [negb bind].
    now rewrite (heat_data_of_no_coordinates _ _ _ _ C I E).
  - intros m Em. unfold create_dashboard. rewrite Em. cbn [bind].
    destruct (save _ m); split; intro S; try reflexivity; try discriminate.
    destruct (negb (empty impact_cities)); discriminate.
Qed.

End DashboardFacts.

(** ** The chart and the whole run *)

Section PipelineFacts.

Context {G : Type} `{Shapely G} `{JoinOrder G} `{Presentation G}.

Lemma descending_transitive : Relations_1.Transitive (@descending G).
Proof.
  intros a b c Hab Hbc. unfold descending in *.
  now apply Qle_trans with (Quake_Magnitude (snd b)).
Qed.

Lemma sorted_prefix_dominates (l1 l2 : list (nat * ImpactedCity G)) :
  StronglySorted descending (l1 ++ l2) ->
  StronglySorted descending l1
  /\ forall t r, In t l1 -> In r l2 -> descending t r.
Proof.
  induction l1 as [| a l1 IH]; simpl; intro S.
  - split; [constructor | intros t r []].
  - inversion S as [| ? ? S' F]; subst. destruct (IH S') as [S1 D].
    split.
    + constructor; [assumption |].
      rewrite Forall_forall in *. intros x I. apply F. apply in_app_iff. now left.
    + intros t r [-> | It] Ir.
      * rewrite Forall_forall in F. apply F. apply in_app_iff. now right.
      * now apply D.
Qed.

(** X10. The chart shows the strongest ten.  For a sort that returns its
    input rearranged, no row before one of greater magnitude: the bars are
    those of [min 10 n] of the [n] impacted rows, in that order, and no row
    left out has a greater magnitude than a row shown. *)
Theorem chart_shows_the_strongest_ten impact_cities risk_zones out_dir
    (d : Dashboard G) :
  (forall l, Permutation l (sort_values l)) ->
  (forall l, Sorted descending (sort_values l)) ->
  create_dashboard impact_cities risk_zones out_dir = Some d ->
  rows impact_cities <> [] ->
  exists shown left_out,
    figure d = Some {| bars := map (fun r => (name (impacted_city (snd r)),
                                              Quake_Magnitude (snd r))) shown |}
    /\ Permutation (rows impact_cities) (shown ++ left_out)
    /\ List.length shown = Nat.min 10 (List.length (rows impact_cities))
    /\ StronglySorted descending shown
    /\ forall t r, In t shown -> In r left_out ->
                   Quake_Magnitude (snd r) <= Quake_Magnitude (snd t).
Proof.
  intros P S E Ei.
  exists (top_cities impact_cities),
         (skipn 10 (sort_values (rows impact_cities))).
  assert (Split : top_cities impact_cities
                  ++ skipn 10 (sort_values (rows impact_cities))
                  = sort_values (rows impact_cities))
    by apply firstn_skipn.
  assert (SS : StronglySorted descending (sort_values (rows impact_cities))).
  { apply Sorted_StronglySorted; [exact descending_transitive | apply S]. }
  rewrite <- Split in SS. apply sorted_prefix_dominates in SS.
  destruct SS as [S1 D].
  split; [| split; [| split; [| split]]].
  - unfold create_dashboard in E.
    destruct (dashboard_map impact_cities risk_zones) as [m |]; simpl in E;
      [| discriminate].
    destruct (save _ m); [| discriminate].
    apply empty_false in Ei. rewrite Ei in E. simpl in E.
    inversion E; subst. reflexivity.
  - rewrite Split. apply P.
  - unfold top_cities. rewrite length_firstn.
    now rewrite <- (Permutation_length (P (rows impact_cities))).
  - exact S1.
  - exact D.
Qed.

(** X11. The dashboard of an analysis.  The zones that the analysis
    returns are none or are in EPSG:4326, so that the reprojection of their
    centroids never lacks a reference system; there is no impacted place
    without a zone; and whenever the dashboard of its two outputs is built
    and a place is impacted, the map holds the tiles, the heat map with one
    entry per zone, the zones, the markers, one per impacted row, and the
    layer control, in this order. *)
Theorem dashboard_of_an_analysis
    quakes_gdf cities_gdf min_mag radius_km cities_w_risk risk_zones :
  perform_risk_analysis quakes_gdf cities_gdf min_mag radius_km
  = Some (cities_w_risk, risk_zones) ->
  (rows risk_zones = [] \/ crs risk_zones = Some EPSG4326)
  /\ (rows cities_w_risk <> [] -> rows risk_zones <> [])
  /\ forall out_dir (d : Dashboard G),
       create_dashboard cities_w_risk risk_zones out_dir = Some d ->
       rows cities_w_risk <> [] ->
       exists heat_data markers,
         children (saved_map d)
         = [TileLayer "CartoDB dark_matter"; HeatMap heat_data;
            GeoJson risk_zones; FeatureGroup "Impacted Cities" markers;
            LayerControl]
         /\ List.length heat_data = List.length (rows risk_zones)
         /\ List.length markers = List.length (rows cities_w_risk).
Proof.
  intro E.
  assert (Z : rows cities_w_risk <> [] -> rows risk_zones <> []).
  { intros Ei Ez. apply Ei.
    rewrite (perform_risk_analysis_join _ _ _ _ _ _ E). now apply sjoin_no_zone. }
  split; [| split; [exact Z |]].
  - destruct (perform_risk_analysis_returns _ _ _ _ _ _ E)
      as [[_ [-> _]] | [source [_ [_ [_ [-> _]]]]]]; simpl; auto.
  - intros out_dir d Ed Ei.
    apply create_dashboard_saved_map in Ed. destruct Ed as [Ed _].
    destruct (dashboard_map_children _ _ _ Ed)
      as [zone_layers [city_layers [Ch [_ [Z1 [_ C1]]]]]].
    destruct (Z1 (Z Ei)) as [heat_data [-> [Lh _]]].
    destruct (C1 Ei) as [markers [-> Lm]].
    exists heat_data, markers. rewrite Ch. simpl. auto.
Qed.


End PipelineFacts.

(** ** The further properties on concrete inputs *)

Section MoreRuns.

Import BoxGeometry BoxPresentation.

Lemma insert_by_magnitude_permutation r l :
  Permutation (r :: l) (insert_by_magnitude r l).
Proof.
  induction l as [| h t IH]; simpl; [apply Permutation_refl |].
  destruct (Qgeb (Quake_Magnitude (snd r)) (Quake_Magnitude (snd h)));
    [apply Permutation_refl |].
  apply perm_trans with (h :: r :: t); [apply perm_swap |].
  now apply perm_skip.
Qed.

Lemma box_sort_values_permutation l : Permutation l (box_sort_values l).
Proof.
  induction l as [| r l IH]; simpl; [constructor |].
  apply perm_trans with (r :: box_sort_values l); [now apply perm_skip |].
  apply insert_by_magnitude_permutation.
Qed.

Lemma insert_by_magnitude_sorted r l :
  Sorted descending l -> Sorted descending (insert_by_magnitude r l).
Proof.
  induction l as [| h t IH]; simpl; intro S; [repeat constructor |].
  destruct (Qgeb (Quake_Magnitude (snd r)) (Quake_Magnitude (snd h))) eqn:B.
  - constructor; [assumption |]. constructor. now apply Qgeb_true.
  - inversion S as [| ? ? St Ht]; subst. constructor; [now apply IH |].
    assert (Lt : Quake_Magnitude (snd r) <= Quake_Magnitude (snd h)).
    { apply Qlt_le_weak. apply Qnot_le_lt. intro L.
      apply Qgeb_true in L. congruence. }
    destruct t as [| h' t']; simpl.
    + constructor. exact Lt.
    + destruct (Qgeb (Quake_Magnitude (snd r)) (Quake_Magnitude (snd h')));
        constructor; [exact Lt |].
      inversion Ht; subst. assumption.
Qed.

Lemma box_sort_values_sorted l : Sorted descending (box_sort_values l).
Proof.
  induction l as [| r l IH]; simpl; [constructor |].
  now apply insert_by_magnitude_sorted.
Qed.

(** The row of the first place of [towns_gulf] and the event labelled 2. *)
Lemma impacted_rows_are_the_intersecting_pairs_witness :
  let out := returned (perform_risk_analysis quakes_gulf towns_gulf 4 50) in
  let r := joined (town 0.05 0) 2%nat (quake 6 0.1 0) in
  In (0%nat, r) (rows (fst out)) <->
  exists c j z,
    In (0%nat, c) (rows towns_gulf) /\ In (j, z) (rows (snd out))
    /\ intersects (city_point c) (geometry z) = true
    /\ impacted_city r = c /\ index_right r = j
    /\ Quake_Magnitude r = mag z /\ Quake_Location r = place z
    /\ quake_title r = title z.
Proof.
  intros out r.
  apply (impacted_rows_are_the_intersecting_pairs quakes_gulf towns_gulf 4 50
           (fst out) (snd out)).
  vm_compute. reflexivity.
Defined.

(** A frame of events without a reference system makes the analysis
    raise as soon as an event reaches the threshold, and not before. *)
Lemma analysis_of_events_without_crs_witness :
  perform_risk_analysis {| crs := None; rows := rows quakes_gulf |} towns_gulf 4 50
  = None
  /\ perform_risk_analysis {| crs := None; rows := rows quakes_gulf |} towns_gulf 7 50
     = Some (empty_frame, empty_frame).
Proof.
  split.
  - apply (proj2 (proj1 (analysis_of_events_without_crs
                           {| crs := None; rows := rows quakes_gulf |}
                           towns_gulf 4 50 eq_refl))).
    split; [discriminate |].
    exists 0%nat, (quake 5 0 0). split; [now left | discriminate].
  - apply (proj2 (analysis_of_events_without_crs
                    {| crs := None; rows := rows quakes_gulf |}
                    towns_gulf 7 50 eq_refl)).
    vm_compute. discriminate.
Defined.

Lemma raising_threshold_only_removes_witness :
  let out := returned (perform_risk_analysis quakes_gulf towns_gulf 4 50) in
  exists cities2 zones2,
    perform_risk_analysis quakes_gulf towns_gulf 5.5 50 = Some (cities2, zones2)
    /\ rows zones2
       = filter (fun r : nat * Quake geom => Qgeb (mag (snd r)) 5.5) (rows (snd out))
    /\ forall i r, In (i, r) (rows cities2) <->
                   In (i, r) (rows (fst out)) /\ 5.5 <= Quake_Magnitude r.
Proof.
  intro out.
  apply (raising_threshold_only_removes quakes_gulf towns_gulf 4 5.5 50).
  - discriminate.
  - vm_compute. reflexivity.
Defined.

Lemma places_are_judged_independently_witness :
  let out := returned (perform_risk_analysis quakes_gulf towns_gulf 4 50) in
  exists impacted1 zones1 impacted2 zones2,
    perform_risk_analysis quakes_gulf towns_gulf_west 4 50 = Some (impacted1, zones1)
    /\ perform_risk_analysis quakes_gulf towns_gulf_east 4 50
       = Some (impacted2, zones2)
    /\ forall i r,
         In (i, r) (rows (fst out)) <->
         In (i, r) (rows impacted1) \/ In (i, r) (rows impacted2).
Proof.
  intro out.
  apply (places_are_judged_independently quakes_gulf towns_gulf
           towns_gulf_west towns_gulf_east 4 50 (fst out) (snd out)).
  - reflexivity.
  - vm_compute. reflexivity.
Defined.

Lemma zones_do_not_depend_on_places_witness :
  option_map snd (perform_risk_analysis quakes_gulf towns_gulf 4 50)
  = option_map snd (perform_risk_analysis quakes_gulf towns_dateline 4 50).
Proof.
  apply zones_do_not_depend_on_places; discriminate.
Defined.

Lemma failed_download_gives_empty_analysis_witness :
  perform_risk_analysis
    (fetch_live_data offline URL_QUAKES "USGS Earthquakes")
    (fetch_live_data read_gulf_towns URL_CITIES "Global Cities")
    MIN_MAGNITUDE RISK_RADIUS_KM
  = Some (empty_frame, empty_frame).
Proof.
  apply failed_download_gives_empty_analysis. left. reflexivity.
Defined.

Lemma map_layers_witness :
  let d := left_behind (create_dashboard (fst analysis_ring) (snd analysis_ring) "out") in
  exists zone_layers city_layers,
    children (saved_map d)
    = TileLayer "CartoDB dark_matter" :: zone_layers ++ city_layers ++ [LayerControl]
    /\ (rows (snd analysis_ring) = [] -> zone_layers = [])
    /\ (rows (snd analysis_ring) <> [] ->
        exists heat_data,
          zone_layers = [HeatMap heat_data; GeoJson (snd analysis_ring)]
          /\ List.length heat_data = List.length (rows (snd analysis_ring))
          /\ map (fun t => snd t) heat_data
             = map (fun r => mag (snd r)) (rows (snd analysis_ring)))
    /\ (rows (fst analysis_ring) = [] -> city_layers = [])
    /\ (rows (fst analysis_ring) <> [] ->
        exists markers,
          city_layers = [FeatureGroup "Impacted Cities" markers]
          /\ List.length markers = List.length (rows (fst analysis_ring))).
Proof.
  intro d.
  apply (map_layers (fst analysis_ring) (snd analysis_ring) "out" d).
  vm_compute. reflexivity.
Defined.

Lemma dashboard_outputs_witness :
  let d := left_behind (create_dashboard (fst analysis_ring) (snd analysis_ring) "out") in
  dict_get (outputs d) "map_path" = Some "out/seismic_risk_map.html"%string
  /\ dict_get (outputs d) "chart_png" = Some "out/risk_chart.png"%string.
Proof.
  intro d.
  destruct (dashboard_outputs (fst analysis_ring) (snd analysis_ring) "out" d)
    as [P [_ [C _]]].
  - vm_compute. reflexivity.
  - split; [exact P |]. apply C. split; [| reflexivity].
    vm_compute. discriminate.
Defined.

(** Zones without a reference system; the zones of an analysis with
    radius 0, whose centroids are empty; a disk that cannot be written. *)
Lemma dashboard_raises_witness :
  create_dashboard (fst analysis_ring) naive_zones "out" = None
  /\ create_dashboard (fst analysis_flat) (snd analysis_flat) "out" = None
  /\ @create_dashboard geom box_shapely read_only_disk
       (fst analysis_ring) (snd analysis_ring) "out" = None.
Proof.
  split; [| split].
  - apply (proj1 (dashboard_raises (fst analysis_ring) naive_zones "out")).
    + discriminate.
    + reflexivity.
  - apply (proj1 (proj2 (dashboard_raises (fst analysis_flat) (snd analysis_flat)
                           "out"))
             EPSG4326 0%nat (set_geometry (quake 5 0 0) [])).
    + reflexivity.
    + vm_compute. now left.
    + reflexivity.
  - apply (proj2 (proj2 (@dashboard_raises geom box_shapely read_only_disk
                           (fst analysis_ring) (snd analysis_ring) "out"))
             (saved_map (left_behind
                (create_dashboard (fst analysis_ring) (snd analysis_ring) "out")))).
    + vm_compute. reflexivity.
    + reflexivity.
Defined.

Lemma chart_shows_the_strongest_ten_witness :
  let d := left_behind (create_dashboard (fst analysis_ring) (snd analysis_ring) "out") in
  exists shown left_out,
    figure d = Some {| bars := map (fun r => (name (impacted_city (snd r)),
                                              Quake_Magnitude (snd r))) shown |}
    /\ Permutation (rows (fst analysis_ring)) (shown ++ left_out)
    /\ List.length shown = Nat.min 10 (List.length (rows (fst analysis_ring)))
    /\ StronglySorted descending shown
    /\ forall t r, In t shown -> In r left_out ->
                   Quake_Magnitude (snd r) <= Quake_Magnitude (snd t).
Proof.
  intro d.
  apply (chart_shows_the_strongest_ten (fst analysis_ring) (snd analysis_ring) "out" d).
  - exact box_sort_values_permutation.
  - exact box_sort_values_sorted.
  - vm_compute. reflexivity.
  - vm_compute. discriminate.
Defined.

Lemma dashboard_of_an_analysis_witness :
  (rows (snd analysis_ring) = [] \/ crs (snd analysis_ring) = Some EPSG4326)
  /\ (rows (fst analysis_ring) <> [] -> rows (snd analysis_ring) <> [])
  /\ exists heat_data markers,
       children (saved_map (left_behind
          (create_dashboard (fst analysis_ring) (snd analysis_ring) "out")))
       = [TileLayer "CartoDB dark_matter"; HeatMap heat_data;
          GeoJson (snd analysis_ring); FeatureGroup "Impacted Cities" markers;
          LayerControl]
       /\ List.length heat_data = List.length (rows (snd analysis_ring))
       /\ List.length markers = List.length (rows (fst analysis_ring)).
Proof.
  destruct (dashboard_of_an_analysis quakes_ring towns_ring 4 50
              (fst analysis_ring) (snd analysis_ring)) as [C [Z D]].
  - vm_compute. reflexivity.
  - split; [exact C |]. split; [exact Z |].
    apply (D "out"%string).
    + vm_compute. reflexivity.
    + vm_compute. discriminate.
Defined.


End MoreRuns.

(** ** The round trip of the projection *)

Section Projection.

Import CoordinateProjector.

Local Open Scope R_scope.

Lemma clamp_latitude_inside (lat : R) :
  -85 <= lat <= 85 -> clamp_latitude lat = lat.
Proof.
  intros [L U]. unfold clamp_latitude, MAX_LATITUDE.
  rewrite Rmin_right by lra. rewrite Rmax_right by lra. reflexivity.
Qed.

Lemma degrees_radians (a : R) : degrees (radians a) = a.
Proof.
  unfold degrees, radians. field. exact PI_neq0.
Qed.

(** The angle of the Mercator formula stays strictly between 0 and a
    right angle. *)
Lemma mercator_angle (lat : R) :
  -85 <= lat <= 85 ->
  0 < PI / 4 + radians lat / 2 < PI / 2.
Proof.
  intros [L U]. unfold radians. pose proof PI_RGT_0 as P. split.
  - assert (A : - (PI / 4) < lat * PI / 180 / 2) by nra. lra.
  - assert (A : lat * PI / 180 / 2 < PI / 4) by nra. lra.
Qed.

(** C7. For every longitude, and every latitude of at most 85 degrees
    north or south, projecting and coming back gives the longitude and the
    latitude again, within 1e-6 degrees (and exactly, over the reals). *)
Theorem projection_round_trip (lon lat : R) :
  -85 <= lat <= 85 ->
  let back := toGeographic (fst (toProjected lon lat)) (snd (toProjected lon lat)) in
  Rabs (fst back - lon) <= 1 / 1000000
  /\ Rabs (snd back - lat) <= 1 / 1000000
  /\ back = (lon, lat).
Proof.
  intros B back.
  assert (E : back = (lon, lat)).
  { unfold back, toGeographic, toProjected. cbn [fst snd].
    rewrite (clamp_latitude_inside lat B).
    destruct (mercator_angle lat B) as [A0 A1].
    f_equal.
    - replace (EARTH_RADIUS * radians lon / EARTH_RADIUS) with (radians lon)
        by (unfold EARTH_RADIUS; field).
      apply degrees_radians.
    - replace (EARTH_RADIUS * ln (tan (PI / 4 + radians lat / 2)) / EARTH_RADIUS)
        with (ln (tan (PI / 4 + radians lat / 2)))
        by (unfold EARTH_RADIUS; field).
      rewrite exp_ln by now apply tan_gt_0.
      rewrite atan_tan by (split; lra).
      replace (2 * (PI / 4 + radians lat / 2) - PI / 2) with (radians lat) by field.
      apply degrees_radians. }
  rewrite E. cbn [fst snd].
  replace (lon - lon) with 0 by ring. replace (lat - lat) with 0 by ring.
  rewrite Rabs_R0. repeat split; lra.
Qed.

(** A point west of the antimeridian, at 45 degrees north. *)
Lemma projection_round_trip_witness :
  let back := toGeographic (fst (toProjected 179.9 45)) (snd (toProjected 179.9 45)) in
  Rabs (fst back - 179.9) <= 1 / 1000000
  /\ Rabs (snd back - 45) <= 1 / 1000000
  /\ back = (179.9, 45).
Proof.
  apply (projection_round_trip 179.9 45). split; lra.
Defined.

End Projection.
